(** * docker-updater: the selection-and-recreation algorithm of [updateContainer]

    A shallow embedding of [updateContainer] (main.go) and the properties its
    specification states about it.

    main.go is present in two revisions, kept apart here as [Rev1]
    (main.go:121-257) and [Rev2] (main.go:379-503).  They differ only in the
    per-container decision of the selection loop; pulling and recreation are
    the same text in both.

    Three packages the function calls are not part of the repository: the
    semantic-version package, the image-reference package and the Docker
    client.  Each is an interface here ([SemverPkg], [ReferencePkg],
    [DockerClient]); the theorems hold for every implementation, and name as
    hypotheses the few facts about an implementation they rely on.  Concrete
    implementations ([Masterminds], [FakeDocker]) are given for running the
    code on concrete inputs. *)

From Stdlib Require Import Strings.String Strings.Ascii Lists.List Bool.Bool.
From Stdlib Require Import Arith.PeanoNat Arith.Arith ZArith.ZArith micromega.Lia.
From Stdlib Require Import Numbers.DecimalString.
Import ListNotations.

Local Open Scope string_scope.
Local Open Scope list_scope.

(** ** Go strings

    A Go string is a sequence of bytes, as is a Rocq [string]. *)

Module strings.

(** [strings.Split(s, sep)] for a one-byte separator: all the substrings
    between separators, so one more element than there are separators. *)
Fixpoint Split (s : string) (sep : ascii) : list string :=
  match s with
  | EmptyString => [EmptyString]
  | String c s' =>
      if Ascii.eqb c sep then EmptyString :: Split s' sep
      else match Split s' sep with
           | [] => [String c EmptyString]
           | p :: ps => String c p :: ps
           end
  end.

(** [strings.HasSuffix(s, suffix)]:
    [len(s) >= len(suffix) && s[len(s)-len(suffix):] == suffix]. *)
Definition HasSuffix (s suffix : string) : bool :=
  (String.length suffix <=? String.length s)%nat &&
  (substring (String.length s - String.length suffix) (String.length suffix) s
     =? suffix)%string.

(** [strings.TrimSuffix(s, suffix)]: [s[:len(s)-len(suffix)]] when [s] ends
    with [suffix], else [s]. *)
Definition TrimSuffix (s suffix : string) : string :=
  if HasSuffix s suffix
  then substring 0 (String.length s - String.length suffix) s
  else s.

(** The byte [c] occurs in [s]. *)
Fixpoint contains (c : ascii) (s : string) : bool :=
  match s with
  | EmptyString => false
  | String d s' => Ascii.eqb d c || contains c s'
  end.

End strings.

(** main.go:110 *)
Definition latest : string := "latest".

Definition colon : ascii := ":"%char.

(** ** The packages [updateContainer] imports *)

(** github.com/Masterminds/semver, as far as main.go uses it.  A [*Version]
    that may be nil is an [option Version]; [NewVersion] returning a non-nil
    error is [None]. *)
Class SemverPkg : Type := {
  Version : Type;
  NewVersion : string -> option Version;
  Prerelease : Version -> string;
  Metadata : Version -> string;
  LessThan : Version -> Version -> bool;
  VersionString : Version -> string
}.

(** Facts about the semver package that some theorems name as hypotheses. *)
Section SemverFacts.
Context {sv : SemverPkg}.

(** The sentinel is not a version. *)
Definition rejects_latest : Prop := NewVersion latest = None.

(** A string that parses holds no [':']. *)
Definition parsed_without_colon : Prop :=
  forall s v, NewVersion s = Some v -> strings.contains colon s = false.

(** No version is less than itself. *)
Definition LessThan_irreflexive : Prop :=
  forall v, LessThan v v = false.
End SemverFacts.

(** [cVer.String()] on a [*semver.Version]: the method reads the fields of its
    receiver, so on a nil pointer the call is a nil-pointer dereference, which
    panics ([None] here). *)
Definition String_of_ptr {sv : SemverPkg} (p : option Version) : option string :=
  match p with
  | Some v => Some (VersionString v)
  | None => None
  end.

(** ** The data the selection loop works on *)

(** [types.Container], the two fields main.go reads. *)
Module Container.
Record t : Type := mk { ID : string; Image : string }.
End Container.

(** The locals [toUpdate] and [containerImages] of the selection loop. *)
Record SelState : Type := {
  toUpdate : list Container.t;
  containerImages : list string
}.

Definition sel_init : SelState := {| toUpdate := []; containerImages := [] |}.

(** One iteration either falls through to the next container ([continue]
    included) or panics; a panic keeps the locals as they were at that
    moment. *)
Inductive StepRes : Type :=
| Next (st : SelState)
| Panic (st : SelState).

Definition locals (r : StepRes) : SelState :=
  match r with Next st => st | Panic st => st end.

(** main.go:142-149 and 400-407:
<<
    iParts := strings.Split(cnt.Image, ":")
    var cRepo, cTag = iParts[0], ""
    if len(iParts) > 1 { cTag = iParts[1] }
    if cTag == "" { cTag = latest }
>> *)
Definition splitImage (image : string) : string * string :=
  let iParts := strings.Split image colon in
  let cRepo := nth 0 iParts "" in
  let cTag := if (1 <? length iParts)%nat then nth 1 iParts "" else "" in
  let cTag := if (cTag =? "")%string then latest else cTag in
  (cRepo, cTag).

(** *** First revision, main.go:140-176 *)
Module Rev1.
Section Select.
Context {sv : SemverPkg}.

(** main.go:170-174: append, then log with [cVer.String()] and
    [ver.String()] as arguments. *)
Definition finish (st : SelState) (cnt : Container.t) (upd : bool)
           (cVer ver : option Version) : StepRes :=
  if upd then
    let st' := {| toUpdate := toUpdate st ++ [cnt];
                  containerImages := containerImages st |} in
    match String_of_ptr cVer with
    | None => Panic st'
    | Some _ =>
        match String_of_ptr ver with
        | None => Panic st'
        | Some _ => Next st'
        end
    end
  else Next st.

Definition selectStep (repo tag : string) (st0 : SelState) (cnt : Container.t)
  : StepRes :=
  let st := {| toUpdate := toUpdate st0;
               containerImages := containerImages st0 ++ [Container.Image cnt] |} in
  let '(cRepo, cTag) := splitImage (Container.Image cnt) in
  if (cRepo =? repo)%string then
    if (cTag =? latest)%string then
      finish st cnt (tag =? cTag)%string None None
    else
      match NewVersion cTag with
      | None => Next st
      | Some cVer =>
          match NewVersion tag with
          | None => Next st
          | Some ver =>
              finish st cnt
                ((Prerelease cVer =? Prerelease ver)%string &&
                 (Metadata cVer =? Metadata ver)%string &&
                 LessThan cVer ver)
                (Some cVer) (Some ver)
          end
      end
  else Next st.
End Select.
End Rev1.

(** *** Second revision, main.go:398-426 *)
Module Rev2.
Section Select.
Context {sv : SemverPkg}.

Definition selectStep (repo tag : string) (st0 : SelState) (cnt : Container.t)
  : StepRes :=
  let st := {| toUpdate := toUpdate st0;
               containerImages := containerImages st0 ++ [Container.Image cnt] |} in
  let '(cRepo, cTag) := splitImage (Container.Image cnt) in
  if (cRepo =? repo)%string then
    let upd :=
      if (cTag =? latest)%string then (tag =? cTag)%string
      else
        match NewVersion cTag, NewVersion tag with
        | Some cVer, Some ver => LessThan cVer ver
        | _, _ => false
        end in
    if upd then
      Next {| toUpdate := toUpdate st ++ [cnt];
              containerImages := containerImages st |}
    else Next st
  else Next st.
End Select.
End Rev2.

Inductive Revision : Type := First | Second.

Definition selectStep {sv : SemverPkg} (rev : Revision)
  : string -> string -> SelState -> Container.t -> StepRes :=
  match rev with
  | First => Rev1.selectStep
  | Second => Rev2.selectStep
  end.

Arguments selectStep : simpl never.

(** [for _, cnt := range containers { ... }] *)
Fixpoint selectLoop {sv : SemverPkg} (rev : Revision) (repo tag : string)
         (st : SelState) (containers : list Container.t) : StepRes :=
  match containers with
  | [] => Next st
  | cnt :: rest =>
      match selectStep rev repo tag st cnt with
      | Next st' => selectLoop rev repo tag st' rest
      | Panic st' => Panic st'
      end
  end.

(** github.com/docker/distribution/reference: [ParseNormalizedNamed(s)]
    followed by [pn.String()]; [inr] carries the error text. *)
Class ReferencePkg : Type := {
  ParseNormalizedNamed : string -> string + string
}.

(** ** The Docker API as main.go uses it *)

(** The parts of the API's data that main.go hands on without looking inside:
    [container.HostConfig], the endpoint map
    [map[string]*network.EndpointSettings], and every field of
    [container.Config] other than [Image]. *)
Class ApiTypes : Type := {
  HostConfig : Type;
  Endpoints : Type;
  ConfigRest : Type
}.

(** [container.Config] *)
Module Config.
Record t {T : ApiTypes} : Type := mk { Image : string; Rest : ConfigRest }.
Arguments t {T}.
Arguments mk {T} _ _.

(** [contConfig.Image = image] *)
Definition set_Image {T : ApiTypes} (c : t) (image : string) : t :=
  {| Image := image; Rest := Rest c |}.
End Config.

(** [types.NetworkSettings]: [Networks] is a map, nil is [None]. *)
Module NetworkSettings.
Record t {T : ApiTypes} : Type := mk { Networks : option Endpoints }.
Arguments t {T}.
Arguments mk {T} _.
End NetworkSettings.

(** [network.NetworkingConfig] *)
Module NetworkingConfig.
Record t {T : ApiTypes} : Type := mk { EndpointsConfig : Endpoints }.
Arguments t {T}.
Arguments mk {T} _.
End NetworkingConfig.

(** [types.ContainerJSONBase], the fields main.go reads: [Image] is the id of
    the backing image; [HostConfig] is a pointer, nil is [None]. *)
Module ContainerJSONBase.
Record t {T : ApiTypes} : Type := mk {
  Image : string;
  Name : string;
  HostConfig_ : option HostConfig
}.
Arguments t {T}.
Arguments mk {T} _ _ _.
End ContainerJSONBase.

(** [types.ContainerJSON]: it embeds a pointer [*ContainerJSONBase], so
    [inspect.Image], [inspect.Name] and [inspect.HostConfig] are fields of
    that base, read through the pointer.  The zero value, which the client
    returns next to an error, has no base ([None]); [Config] and
    [NetworkSettings] are pointers of the value itself, nil is [None]. *)
Module ContainerJSON.
Record t {T : ApiTypes} : Type := mk {
  Base : option ContainerJSONBase.t;
  Config : option Config.t;
  NetworkSettings : option NetworkSettings.t
}.
Arguments t {T}.
Arguments mk {T} _ _ _.
End ContainerJSON.

(** [types.ImageDeleteResponseItem] *)
Module ImageDeleteResponseItem.
Record t : Type := mk { Untagged : string; Deleted : string }.
End ImageDeleteResponseItem.

(** A Go [error] is its message; nil is [None]. *)
Definition error : Type := option string.

(** The calls [updateContainer] makes on [cli] and on the pull stream [out],
    with their arguments. *)
Inductive Call {T : ApiTypes} : Type :=
| CContainerList
| CImagePull (ref : string)
| CCopyDiscard
| CClose
| CContainerInspect (id : string)
| CContainerRemove (id : string) (force : bool)
| CContainerCreate (config : Config.t) (host : option HostConfig)
                   (networking : option NetworkingConfig.t) (name : string)
| CContainerStart (id : string)
| CImageRemove (image : string).

(** The container runtime behind [cli], over a state [W] of its own.  Every
    call takes the runtime's state and gives the next one with what the Go
    method returns: a value and an [error] where main.go looks at both, the
    sum of the two where it reads the value only after [err == nil]. *)
Class DockerClient {T : ApiTypes} (W : Type) : Type := {
  ContainerList : W -> W * (list Container.t + string);
  ImagePull : string -> W -> W * error;
  (** [io.Copy(ioutil.Discard, out)]: the bytes read and the error *)
  CopyDiscard : W -> W * (Z * error);
  (** [out.Close()] *)
  Close : W -> W * error;
  ContainerInspect : string -> W -> W * (ContainerJSON.t * error);
  ContainerRemove : string -> bool -> W -> W * error;
  ContainerCreate :
    Config.t -> option HostConfig -> option NetworkingConfig.t -> string ->
    W -> W * (string + string);
  ContainerStart : string -> W -> W * error;
  ImageRemove : string -> W -> W * (list ImageDeleteResponseItem.t + string)
}.

(** ** Running [updateContainer] *)

(** How a run ends: it returns nil, returns an error, or panics. *)
Inductive Outcome (A : Type) : Type :=
| Done (a : A)
| Failed (msg : string)
| Panicked.
Arguments Done {A} a.
Arguments Failed {A} msg.
Arguments Panicked {A}.

Section Run.
Context {T : ApiTypes} {W : Type} {cli : DockerClient W}.

(** The runtime's state and the calls made so far, oldest first. *)
Record St : Type := { world : W; calls : list Call }.

Definition M (A : Type) : Type := St -> St * Outcome A.

Definition ret {A} (a : A) : M A := fun st => (st, Done a).

Definition bind {A B} (m : M A) (f : A -> M B) : M B :=
  fun st =>
    let (st', r) := m st in
    match r with
    | Done a => f a st'
    | Failed msg => (st', Failed msg)
    | Panicked => (st', Panicked)
    end.

(** [return _err(...)] *)
Definition _err {A} (msg : string) : M A := fun st => (st, Failed msg).

Definition panic {A} : M A := fun st => (st, Panicked).

(** A call on the runtime, recorded. *)
Definition call {A} (c : Call) (f : W -> W * A) : M A :=
  fun st =>
    let (w, a) := f (world st) in
    ({| world := w; calls := calls st ++ [c] |}, Done a).

(** [defer out.Close()]: runs however the rest of the function ends; its
    error is logged in the first revision and dropped in the second. *)
Definition defer_Close {A} (body : M A) : M A :=
  fun st =>
    let (st', r) := body st in
    ({| world := fst (Close (world st')); calls := calls st' ++ [CClose] |}, r).
End Run.

Arguments St {T} W.
Arguments M {T} W A.

Declare Scope go_scope.
Delimit Scope go_scope with go.
Notation "x <- m ;; k" := (bind m (fun x => k))
  (at level 61, m at next level, right associativity) : go_scope.
Notation "m ;;; k" := (bind m (fun _ => k))
  (at level 61, right associativity) : go_scope.

Section Update.
Context {T : ApiTypes} {W : Type} {cli : DockerClient W}.
Context {sv : SemverPkg} {rf : ReferencePkg}.
Local Open Scope go_scope.

(** main.go:219-224 and 465-470 *)
Definition networkingConfig_of (inspect : ContainerJSON.t)
  : option NetworkingConfig.t :=
  match ContainerJSON.NetworkSettings inspect with
  | Some ns =>
      match NetworkSettings.Networks ns with
      | Some nets => Some (NetworkingConfig.mk nets)
      | None => None
      end
  | None => None
  end.

(** main.go:234-250 and 480-496: the inspect after the start, its error never
    read, and the removal of the previous image, whose result is only
    logged.  [inspect.Image] is read through the base of whatever value the
    inspect returned: without a base the read is a nil-pointer dereference. *)
Definition reclaim (prevImageId createdID : string) : M W unit :=
  r <- call (CContainerInspect createdID) (ContainerInspect createdID) ;;
  let inspect := fst r in
  match ContainerJSON.Base inspect with
  | None => panic
  | Some base =>
      if negb (prevImageId =? ContainerJSONBase.Image base)%string then
        call (CImageRemove prevImageId) (ImageRemove prevImageId) ;;;
        ret tt
      else ret tt
  end.

(** The body of [for _, cnt := range toUpdate], main.go:205-250 and 451-496. *)
Definition recreate (fullRepo : string) (cnt : Container.t) : M W unit :=
  r <- call (CContainerInspect (Container.ID cnt))
            (ContainerInspect (Container.ID cnt)) ;;
  let inspect := fst r in
  match snd r with
  | Some e =>
      _err ("inspect container " ++ Container.ID cnt ++ " error: " ++ e)%string
  | None =>
      (* prevImageId := inspect.Image, through the embedded base *)
      match ContainerJSON.Base inspect with
      | None => panic
      | Some base =>
          let prevImageId := ContainerJSONBase.Image base in
          e <- call (CContainerRemove (Container.ID cnt) true)
                    (ContainerRemove (Container.ID cnt) true) ;;
          match e with
          | Some e =>
              _err ("remove container " ++ Container.ID cnt ++ " error: " ++ e)%string
          | None =>
              (* contConfig stays nil when inspect.Config is nil; the
                 assignment to contConfig.Image then goes through a nil
                 pointer *)
              match ContainerJSON.Config inspect with
              | None => panic
              | Some config =>
                  let contConfig :=
                    Config.set_Image config
                      (strings.TrimSuffix fullRepo (String colon latest)) in
                  let networkingConfig := networkingConfig_of inspect in
                  created <-
                    call (CContainerCreate contConfig
                            (ContainerJSONBase.HostConfig_ base) networkingConfig
                            (ContainerJSONBase.Name base))
                         (ContainerCreate contConfig
                            (ContainerJSONBase.HostConfig_ base) networkingConfig
                            (ContainerJSONBase.Name base)) ;;
                  match created with
                  | inr e => _err ("create new container error: " ++ e)%string
                  | inl createdID =>
                      e <- call (CContainerStart createdID)
                                (ContainerStart createdID) ;;
                      match e with
                      | Some e => _err ("start new container error: " ++ e)%string
                      | None => reclaim prevImageId createdID
                      end
                  end
              end
          end
      end
  end.

(** [for _, cnt := range toUpdate { ... }]: the first error or panic ends the
    function. *)
Fixpoint recreateAll (fullRepo : string) (todo : list Container.t) : M W unit :=
  match todo with
  | [] => ret tt
  | cnt :: rest => recreate fullRepo cnt ;;; recreateAll fullRepo rest
  end.

(** What follows the selection loop, main.go:177-256 and 427-502: nothing
    when [toUpdate] is empty, else the pull and the recreation of every
    selected container.  A panic in the loop has ended the function before. *)
Definition pullAndRecreate (fullRepo : string) (selection : StepRes) : M W unit :=
  match selection with
  | Panic _ => panic
  | Next sel =>
      if (length (toUpdate sel) =? 0)%nat then ret tt
      else
        match ParseNormalizedNamed fullRepo with
        | inr e =>
            _err ("parse container name " ++ fullRepo ++ " error: " ++ e)%string
        | inl pn =>
            e <- call (CImagePull pn) (ImagePull pn) ;;
            match e with
            | Some e =>
                _err ("pull image " ++ fullRepo ++ " error: " ++ e)%string
            | None =>
                defer_Close
                  (call CCopyDiscard CopyDiscard ;;;
                   recreateAll fullRepo (toUpdate sel))
            end
        end
  end.

(** [updateContainer(repo, tag)], main.go:121-257 for [First] and 379-503 for
    [Second].  Log output is left out; what a log statement evaluates is
    not. *)
Definition updateContainer (rev : Revision) (repo tag : string) : M W unit :=
  if (repo =? "")%string || (tag =? "")%string then
    _err "repo and tag must be filled"
  else
    let fullRepo := (repo ++ ":" ++ tag)%string in
    listed <- call CContainerList ContainerList ;;
    match listed with
    | inr e => _err ("get containers list error: " ++ e)%string
    | inl containers =>
        pullAndRecreate fullRepo (selectLoop rev repo tag sel_init containers)
    end.

(** A run from a runtime state, with no call made yet. *)
Definition run {A} (m : M W A) (w : W) : St W * Outcome A :=
  m {| world := w; calls := [] |}.
End Update.

(** ** A semver implementation to run the code with

    The parser and the ordering of github.com/Masterminds/semver, after the
    package's pattern
    [v?([0-9]+)(\.[0-9]+)?(\.[0-9]+)?(-(ids))?(\+(ids))?] with [ids] one or
    more dot-separated runs of [[0-9A-Za-z-]]; the missing minor and patch are
    zero. *)
Module Masterminds.

Record Version_ : Type := mkVersion {
  major : Z; minor : Z; patch : Z;
  pre : string; metadata : string; original : string
}.

Definition is_digit (c : ascii) : bool :=
  let n := nat_of_ascii c in ((48 <=? n) && (n <=? 57))%nat.

Definition is_ident_char (c : ascii) : bool :=
  let n := nat_of_ascii c in
  (is_digit c || ((65 <=? n) && (n <=? 90)) || ((97 <=? n) && (n <=? 122))
   || (n =? 45))%nat.

Fixpoint all_chars (p : ascii -> bool) (s : string) : bool :=
  match s with
  | EmptyString => true
  | String c s' => p c && all_chars p s'
  end.

(** [s] up to the first [c], and what follows that [c] if there is one. *)
Fixpoint cut (c : ascii) (s : string) : string * option string :=
  match s with
  | EmptyString => (EmptyString, None)
  | String d s' =>
      if Ascii.eqb d c then (EmptyString, Some s')
      else let (a, b) := cut c s' in (String d a, b)
  end.

Fixpoint digits_value (acc : Z) (s : string) : Z :=
  match s with
  | EmptyString => acc
  | String c s' => digits_value (10 * acc + (Z.of_nat (nat_of_ascii c) - 48)) s'
  end.

(** [strconv.ParseInt(s, 10, 64)] on a run of digits: an error when the run
    is empty or the value does not fit. *)
Definition parse_segment (s : string) : option Z :=
  match s with
  | EmptyString => None
  | _ =>
      if all_chars is_digit s then
        let n := digits_value 0 s in
        if (n <? 2 ^ 63)%Z then Some n else None
      else None
  end.

(** [strconv.ParseUint(s, 10, 64)]: a non-empty run of digits, no sign,
    whose value fits 64 bits; an error otherwise. *)
Definition ParseUint (s : string) : option Z :=
  match s with
  | EmptyString => None
  | _ =>
      if all_chars is_digit s then
        let n := digits_value 0 s in
        if (n <? 2 ^ 64)%Z then Some n else None
      else None
  end.

(** One or more dot-separated non-empty runs of identifier bytes. *)
Definition ids_ok (s : string) : bool :=
  forallb (fun p => negb (p =? "")%string && all_chars is_ident_char p)
          (strings.Split s "."%char).

Definition opt_ids_ok (s : option string) : bool :=
  match s with Some s => ids_ok s | None => true end.

Definition opt_string (s : option string) : string :=
  match s with Some s => s | None => EmptyString end.

(** The byte [c] occurs in [s], when there is an [s]. *)
Definition opt_contains (c : ascii) (s : option string) : bool :=
  match s with Some s => strings.contains c s | None => false end.

Definition NewVersion_ (v : string) : option Version_ :=
  let body := match v with String "v" r => r | _ => v end in
  let (core_pre, meta) := cut "+"%char body in
  let (core, prerelease) := cut "-"%char core_pre in
  if opt_ids_ok prerelease && opt_ids_ok meta then
    let mk ma mi pa :=
      Some (mkVersion ma mi pa (opt_string prerelease) (opt_string meta) v) in
    match map parse_segment (strings.Split core "."%char) with
    | [Some ma] => mk ma 0%Z 0%Z
    | [Some ma; Some mi] => mk ma mi 0%Z
    | [Some ma; Some mi; Some pa] => mk ma mi pa
    | _ => None
    end
  else None.

Definition compareSegment (v o : Z) : Z :=
  if (v <? o)%Z then (-1)%Z else if (o <? v)%Z then 1%Z else 0%Z.

Definition comparePrePart (s o : string) : Z :=
  if (s =? o)%string then 0%Z
  else if (s =? "")%string then (-1)%Z
  else if (o =? "")%string then 1%Z
  else
    match ParseUint s, ParseUint o with
    | None, None => if String.ltb o s then 1%Z else (-1)%Z
    | Some _, None => (-1)%Z
    | None, Some _ => 1%Z
    | Some si, Some oi => if (oi <? si)%Z then 1%Z else (-1)%Z
    end.

(** [for i := 0; i < l; i++ { ... }] over the parts, a missing part read as
    the empty string. *)
Fixpoint comparePreLoop (sparts oparts : list string) (i n : nat) : Z :=
  match n with
  | O => 0%Z
  | S n' =>
      let d := comparePrePart (nth i sparts "") (nth i oparts "") in
      if (d =? 0)%Z then comparePreLoop sparts oparts (S i) n' else d
  end.

Definition comparePrerelease (v o : string) : Z :=
  let sparts := strings.Split v "."%char in
  let oparts := strings.Split o "."%char in
  comparePreLoop sparts oparts 0 (Nat.max (length sparts) (length oparts)).

Definition Compare (v o : Version_) : Z :=
  let d := compareSegment (major v) (major o) in
  if negb (d =? 0)%Z then d else
  let d := compareSegment (minor v) (minor o) in
  if negb (d =? 0)%Z then d else
  let d := compareSegment (patch v) (patch o) in
  if negb (d =? 0)%Z then d else
  let ps := pre v in
  let po := pre o in
  if (ps =? "")%string && (po =? "")%string then 0%Z
  else if (ps =? "")%string then 1%Z
  else if (po =? "")%string then (-1)%Z
  else comparePrerelease ps po.

Definition LessThan_ (v o : Version_) : bool := (Compare v o <? 0)%Z.

Definition decimal (n : Z) : string := NilZero.string_of_int (Z.to_int n).

(** [String()]: the version rebuilt from its parts. *)
Definition String_ (v : Version_) : string :=
  (decimal (major v) ++ "." ++ decimal (minor v) ++ "." ++ decimal (patch v)
   ++ (if (pre v =? "") then "" else "-" ++ pre v)
   ++ (if (metadata v =? "") then "" else "+" ++ metadata v))%string.

#[export] Instance pkg : SemverPkg := {|
  Version := Version_;
  NewVersion := NewVersion_;
  Prerelease := pre;
  Metadata := metadata;
  LessThan := LessThan_;
  VersionString := String_
|}.

End Masterminds.

(** ** A reference parser and a container runtime to run the code with *)

(** A stand-in for the reference package: a bare name gets the default
    registry and namespace in front; the empty string is no reference. *)
Module SimpleReference.
#[export] Instance pkg : ReferencePkg := {|
  ParseNormalizedNamed s :=
    if (s =? "")%string then inr "invalid reference format"
    else inl ("docker.io/library/" ++ s)%string
|}.
End SimpleReference.

(** An in-memory container runtime.  A container is listed under the image
    name it was created with; any call can be made to fail by [faults]. *)
Module FakeDocker.
Section Fake.
Context {T : ApiTypes}.

Record Ctr : Type := mkCtr {
  id : string;
  image : string;      (* the image name the container was created with *)
  imageID : string;    (* the id of the backing image *)
  name : string;
  config : Config.t;
  host : option HostConfig;
  networks : option Endpoints;
  running : bool
}.

Record World : Type := mkWorld {
  containers : list Ctr;
  (** the image id an image name resolves to *)
  resolve : string -> string;
  (** the calls that fail *)
  faults : Call -> bool
}.

Definition with_containers (w : World) (cs : list Ctr) : World :=
  {| containers := cs; resolve := resolve w; faults := faults w |}.

Definition listed (c : Ctr) : Container.t :=
  Container.mk (id c) (image c).

(** [ContainerList] with the default options: the running containers. *)
Definition running_containers (w : World) : list Container.t :=
  map listed (filter running (containers w)).

Definition inspected (c : Ctr) : ContainerJSON.t :=
  ContainerJSON.mk (Some (ContainerJSONBase.mk (imageID c) (name c) (host c)))
                   (Some (config c))
                   (Some (NetworkSettings.mk (networks c))).

(** What the client returns next to a non-nil error. *)
Definition zero_ContainerJSON : ContainerJSON.t :=
  ContainerJSON.mk None None None.

Definition has_id (i : string) (c : Ctr) : bool := (id c =? i)%string.

Fixpoint zeros (n : nat) : string :=
  match n with
  | O => EmptyString
  | S n' => String "0" (zeros n')
  end.

(** An id longer than every id in use. *)
Definition fresh_id (w : World) : string :=
  zeros (S (list_max (map (fun c => String.length (id c)) (containers w)))).

Definition fContainerList (w : World) : World * (list Container.t + string) :=
  if faults w CContainerList then (w, inr "cannot connect to the daemon")
  else (w, inl (running_containers w)).

Definition fImagePull (ref : string) (w : World) : World * error :=
  if faults w (CImagePull ref) then (w, Some "pull access denied")
  else (w, None).

Definition fContainerInspect (i : string) (w : World)
  : World * (ContainerJSON.t * error) :=
  if faults w (CContainerInspect i)
  then (w, (zero_ContainerJSON, Some "request failed"))
  else
    match find (has_id i) (containers w) with
    | Some c => (w, (inspected c, None))
    | None => (w, (zero_ContainerJSON, Some ("No such container: " ++ i)%string))
    end.

Definition fContainerRemove (i : string) (force : bool) (w : World)
  : World * error :=
  if faults w (CContainerRemove i force) then (w, Some "request failed")
  else
    match find (has_id i) (containers w) with
    | None => (w, Some ("No such container: " ++ i)%string)
    | Some c =>
        if running c && negb force
        then (w, Some "cannot remove a running container")
        else (with_containers w
                (filter (fun c => negb (has_id i c)) (containers w)), None)
    end.

Definition fContainerCreate (cfg : Config.t) (h : option HostConfig)
           (net : option NetworkingConfig.t) (nm : string) (w : World)
  : World * (string + string) :=
  if faults w (CContainerCreate cfg h net nm) then (w, inr "request failed")
  else if existsb (fun c => (name c =? nm)%string) (containers w)
  then (w, inr ("Conflict. The container name " ++ nm ++ " is already in use")%string)
  else
    let i := fresh_id w in
    let c := {| id := i;
                image := Config.Image cfg;
                imageID := resolve w (Config.Image cfg);
                name := nm;
                config := cfg;
                host := h;
                networks := option_map NetworkingConfig.EndpointsConfig net;
                running := false |} in
    (with_containers w (containers w ++ [c]), inl i).

Definition start (i : string) (c : Ctr) : Ctr :=
  if has_id i c
  then {| id := id c; image := image c; imageID := imageID c; name := name c;
          config := config c; host := host c; networks := networks c;
          running := true |}
  else c.

Definition fContainerStart (i : string) (w : World) : World * error :=
  if faults w (CContainerStart i) then (w, Some "request failed")
  else
    match find (has_id i) (containers w) with
    | None => (w, Some ("No such container: " ++ i)%string)
    | Some _ => (with_containers w (map (start i) (containers w)), None)
    end.

Definition fImageRemove (img : string) (w : World)
  : World * (list ImageDeleteResponseItem.t + string) :=
  if faults w (CImageRemove img) then (w, inr "request failed")
  else if existsb (fun c => (imageID c =? img)%string) (containers w)
  then (w, inr "conflict: image is being used by a container")
  else (w, inl [ImageDeleteResponseItem.mk "" img]).

(** Draining the pull stream: the pull can fail here, after [ImagePull]
    returned without error. *)
Definition fCopyDiscard (w : World) : World * (Z * error) :=
  (w, if faults w CCopyDiscard then (0%Z, Some "unexpected EOF")
      else (0%Z, None)).

Definition fClose (w : World) : World * error :=
  (w, if faults w CClose then Some "already closed" else None).

#[export] Instance client : DockerClient World := {|
  ContainerList := fContainerList;
  ImagePull := fImagePull;
  CopyDiscard := fCopyDiscard;
  Close := fClose;
  ContainerInspect := fContainerInspect;
  ContainerRemove := fContainerRemove;
  ContainerCreate := fContainerCreate;
  ContainerStart := fContainerStart;
  ImageRemove := fImageRemove
|}.
(** What an iteration that ends without error leaves of the containers: the
    failure settings as they were, and every running container either created
    from the new image or there before, under another id than the one
    recreated. *)
Definition carried_over (newImage : string) (ids : list string)
           (w w' : World) : Prop :=
  faults w' = faults w /\
  forall c, In c (containers w') -> running c = true ->
            image c = newImage \/
            (In c (containers w) /\ ~ In (id c) ids).

End Fake.
Arguments Ctr {T}.
Arguments World {T}.

(** Opaque settings as text, to write down concrete containers. *)
#[export] Instance text_types : ApiTypes := {|
  HostConfig := string;
  Endpoints := list string;
  ConfigRest := list string
|}.

Definition no_faults : @Call text_types -> bool := fun _ => false.

(** A running container created from [img], with some settings. *)
Definition a_container (i nm img imgid : string) : @Ctr text_types :=
  {| id := i; image := img; imageID := imgid; name := nm;
     config := Config.mk img ["PATH=/usr/bin"];
     host := Some "restart=always";
     networks := Some ["bridge"];
     running := true |}.

Definition a_world (cs : list (@Ctr text_types))
           (f : @Call text_types -> bool) : @World text_types :=
  {| containers := cs; resolve := fun img => ("sha256:" ++ img)%string;
     faults := f |}.
End FakeDocker.

(** ** What the claims are stated with *)

(** The container was appended to [toUpdate] by the step that gave [r]. *)
Definition selected (st : SelState) (r : StepRes) (cnt : Container.t) : Prop :=
  toUpdate (locals r) = toUpdate st ++ [cnt].

(** The split the specification words: on the last [':'], with [latest] when
    there is none. *)
Fixpoint splitLast_aux (s : string) : option (string * string) :=
  match s with
  | EmptyString => None
  | String c s' =>
      match splitLast_aux s' with
      | Some (a, b) => Some (String c a, b)
      | None => if Ascii.eqb c colon then Some (EmptyString, s') else None
      end
  end.

Definition splitLast (image : string) : string * string :=
  match splitLast_aux image with
  | Some p => p
  | None => (image, latest)
  end.

(** The value of [upd] after main.go:151-169 (first revision) and 409-420
    (second revision), [false] where the iteration is left by [continue] or
    the repository differs. *)
Definition upd {sv : SemverPkg} (rev : Revision) (repo tag image : string) : bool :=
  let '(cRepo, cTag) := splitImage image in
  (cRepo =? repo)%string &&
  (if (cTag =? latest)%string then (tag =? cTag)%string
   else
     match NewVersion cTag, NewVersion tag with
     | Some cVer, Some ver =>
         match rev with
         | First =>
             (Prerelease cVer =? Prerelease ver)%string &&
             (Metadata cVer =? Metadata ver)%string &&
             LessThan cVer ver
         | Second => LessThan cVer ver
         end
     | _, _ => false
     end).

Definition is_panic (r : StepRes) : bool :=
  match r with Panic _ => true | Next _ => false end.

(** Two results of the selection that differ at most in the images listed for
    the log. *)
Definition same_selection (r1 r2 : StepRes) : Prop :=
  is_panic r1 = is_panic r2 /\ toUpdate (locals r1) = toUpdate (locals r2).

(** The calls that touch a container. *)
Definition touches_container {T : ApiTypes} (c : Call) : bool :=
  match c with
  | CContainerInspect _ | CContainerRemove _ _
  | CContainerCreate _ _ _ _ | CContainerStart _ => true
  | _ => false
  end.

(** The state after the first three calls of an iteration. *)
Definition created_state {T : ApiTypes} {W : Type} (fullRepo : string)
           (cnt : Container.t) (st : St W) (js : ContainerJSON.t)
           (base : ContainerJSONBase.t) (config : Config.t) (w : W) : St W :=
  {| world := w;
     calls := calls st ++
       [CContainerInspect (Container.ID cnt);
        CContainerRemove (Container.ID cnt) true;
        CContainerCreate
          (Config.set_Image config
             (strings.TrimSuffix fullRepo (String colon latest)))
          (ContainerJSONBase.HostConfig_ base) (networkingConfig_of js)
          (ContainerJSONBase.Name base)] |}.

(** Concrete inputs: containers, runtime states and parsed versions. *)
Module Samples.
Import FakeDocker.

Definition app_1_2_0 : Container.t := Container.mk "c1" "app:1.2.0".
Definition app_1_2_0_beta : Container.t := Container.mk "c1" "app:1.2.0-beta".
Definition app_latest : Container.t := Container.mk "c1" "app:latest".
Definition app_unversioned : Container.t := Container.mk "c1" "app:stable".

Definition v1_2_0 : Masterminds.Version_ :=
  Masterminds.mkVersion 1 2 0 "" "" "1.2.0".
Definition v1_2_0_beta : Masterminds.Version_ :=
  Masterminds.mkVersion 1 2 0 "beta" "" "1.2.0-beta".
Definition v1_3_0 : Masterminds.Version_ :=
  Masterminds.mkVersion 1 3 0 "" "" "1.3.0".

(** One container of the repository [app] and one of another repository. *)
Definition world_with (img : string) (f : @Call text_types -> bool)
  : @World text_types :=
  a_world [a_container "c1" "web" img "sha256:old";
           a_container "c2" "db" "postgres:9.6" "sha256:pg"] f.

Definition pull_fails : @Call text_types -> bool :=
  fun c => match c with CImagePull _ => true | _ => false end.

(** The pull starts and fails while its stream is read. *)
Definition drain_fails : @Call text_types -> bool :=
  fun c => match c with CCopyDiscard => true | _ => false end.

(** The inspect of the replacement fails; the replacement gets the id
    ["000"], the shortest id longer than ["c1"] and ["c2"]. *)
Definition reinspect_fails : @Call text_types -> bool :=
  fun c => match c with
           | CContainerInspect i => (i =? "000")%string
           | _ => false
           end.

(** The removal of the previous image fails. *)
Definition image_remove_fails : @Call text_types -> bool :=
  fun c => match c with CImageRemove _ => true | _ => false end.

(** [updateContainer] on the in-memory runtime. *)
Definition update (rev : Revision) (repo tag : string) (w : @World text_types)
  : St (@World text_types) * Outcome unit :=
  run (updateContainer (cli := client) (sv := Masterminds.pkg)
                       (rf := SimpleReference.pkg) rev repo tag) w.
End Samples.

(** ** The calls of a run, by kind and order *)

Section Protocol.
Context {T : ApiTypes}.

Definition is_remove (c : Call) : bool :=
  match c with CContainerRemove _ _ => true | _ => false end.

Definition is_create (c : Call) : bool :=
  match c with CContainerCreate _ _ _ _ => true | _ => false end.

Definition is_start (c : Call) : bool :=
  match c with CContainerStart _ => true | _ => false end.

Definition is_close (c : Call) : bool :=
  match c with CClose => true | _ => false end.

(** A call on a container or on an image other than the pull. *)
Definition in_loop (c : Call) : bool :=
  match c with
  | CContainerInspect _ | CContainerRemove _ _ | CContainerCreate _ _ _ _
  | CContainerStart _ | CImageRemove _ => true
  | _ => false
  end.

Definition count (p : Call -> bool) (cs : list Call) : nat :=
  length (filter p cs).

(** The ids [ContainerRemove] was called with, in order. *)
Definition removed_ids (cs : list Call) : list string :=
  flat_map (fun c => match c with CContainerRemove i _ => [i] | _ => [] end) cs.

(** The calls one iteration of the recreation loop can make for the container
    [i]; the flag tells whether the iteration ran to its end. *)
Inductive iteration (i : string) : bool -> list Call -> Prop :=
| it_inspect :
    iteration i false [CContainerInspect i]
| it_remove :
    iteration i false [CContainerInspect i; CContainerRemove i true]
| it_create c h n nm :
    iteration i false
      [CContainerInspect i; CContainerRemove i true; CContainerCreate c h n nm]
| it_start c h n nm new :
    iteration i false
      [CContainerInspect i; CContainerRemove i true; CContainerCreate c h n nm;
       CContainerStart new]
| it_reinspect c h n nm new :
    iteration i false
      [CContainerInspect i; CContainerRemove i true; CContainerCreate c h n nm;
       CContainerStart new; CContainerInspect new]
| it_done c h n nm new :
    iteration i true
      [CContainerInspect i; CContainerRemove i true; CContainerCreate c h n nm;
       CContainerStart new; CContainerInspect new]
| it_reclaim c h n nm new prev :
    iteration i true
      [CContainerInspect i; CContainerRemove i true; CContainerCreate c h n nm;
       CContainerStart new; CContainerInspect new; CImageRemove prev].

(** The calls of the recreation loop over [todo]: whole iterations, and one
    cut short if the loop did not run to its end. *)
Inductive loop_trace : list Container.t -> bool -> list Call -> Prop :=
| lt_nil : loop_trace [] true []
| lt_abort cnt rest it :
    iteration (Container.ID cnt) false it ->
    loop_trace (cnt :: rest) false it
| lt_step cnt rest it its b :
    iteration (Container.ID cnt) true it ->
    loop_trace rest b its ->
    loop_trace (cnt :: rest) b (it ++ its).
End Protocol.

Definition is_done {A : Type} (r : Outcome A) : bool :=
  match r with Done _ => true | _ => false end.

(** ** The HTTP handlers, main.go:62-103 and 323-361 *)

(** The docker hub hook payload. *)
Module pushData.
Record t : Type := mk { PushedAt : Z; Tag : string; Pusher : string }.
End pushData.

Module repository.
Record t : Type := mk { RepoName : string; IsTrusted : bool }.
End repository.

Module push.
Record t : Type := mk { Data : pushData.t; Repository : repository.t }.
End push.

(** [echo.Context], as far as the handlers use it, over a state [C] of the
    request being served.  [Bind] gives the decoded payload or the error. *)
Class EchoContext (C : Type) : Type := {
  QueryParam : string -> C -> string;
  Bind : C -> C * (push.t + string);
  (** [c.String(code, s)] *)
  WriteString : nat -> string -> C -> C * error
}.

(** What a handler wrote with [c.String]. *)
Inductive Written : Type :=
| WString (code : nat) (s : string).

Section Handlers.
Context {T : ApiTypes} {W : Type} {cli : DockerClient W}.
Context {sv : SemverPkg} {rf : ReferencePkg}.
Context {C : Type} {echo : EchoContext C}.

(** The request, what was written to it, and the runtime. *)
Record Serving : Type := {
  ctx : C;
  written : list Written;
  docker : St W
}.

(** A handler returns nil ([Done]), an error ([Failed]), or panics. *)
Definition Handler : Type := Serving -> Serving * Outcome unit.

(** [return c.String(http.StatusOK, "OK")] *)
Definition respond_OK : Handler :=
  fun s =>
    let (c, e) := WriteString 200 "OK" (ctx s) in
    ({| ctx := c; written := written s ++ [WString 200 "OK"];
        docker := docker s |},
     match e with Some msg => Failed msg | None => Done tt end).

(** main.go:62-64 *)
Definition probe : Handler := respond_OK.

(** main.go:80-86 *)
Definition _upd (rev : Revision) (repo tag : string) : Handler :=
  fun s =>
    let (st, r) := updateContainer rev repo tag (docker s) in
    let s' := {| ctx := ctx s; written := written s; docker := st |} in
    match r with
    | Failed msg => (s', Failed msg)
    | Panicked => (s', Panicked)
    | Done _ => respond_OK s'
    end.

(** main.go:67-69 *)
Definition updManual (rev : Revision) : Handler :=
  fun s => _upd rev (QueryParam "repo" (ctx s)) (QueryParam "tag" (ctx s)) s.

(** main.go:72-78 *)
Definition updByHook (rev : Revision) : Handler :=
  fun s =>
    let (c, p) := Bind (ctx s) in
    let s' := {| ctx := c; written := written s; docker := docker s |} in
    match p with
    | inr e => (s', Failed e)
    | inl p =>
        _upd rev (repository.RepoName (push.Repository p))
             (pushData.Tag (push.Data p)) s'
    end.
End Handlers.

Arguments Serving {T} W C.
Arguments Handler {T} W C.

(** A request held in memory: its query parameters and what its body binds
    to.  A missing parameter reads as the empty string; writing succeeds. *)
Module FakeEcho.
Record Request : Type := mkRequest {
  query : list (string * string);
  payload : push.t + string
}.

Fixpoint lookup (k : string) (l : list (string * string)) : string :=
  match l with
  | [] => ""
  | (k', v) :: l' => if (k' =? k)%string then v else lookup k l'
  end.

#[export] Instance context : EchoContext Request := {|
  QueryParam k r := lookup k (query r);
  Bind r := (r, payload r);
  WriteString _ _ r := (r, None)
|}.

Definition get (q : list (string * string)) : Request :=
  {| query := q; payload := inr "EOF" |}.

Definition post (repo tag : string) : Request :=
  {| query := [];
     payload := inl (push.mk (pushData.mk 0 tag "someone")
                             (repository.mk repo true)) |}.

(** A request arriving at the in-memory runtime [w]. *)
Definition arriving (r : Request) (w : @FakeDocker.World FakeDocker.text_types)
  : @Serving FakeDocker.text_types (@FakeDocker.World FakeDocker.text_types)
             Request :=
  {| ctx := r; written := []; docker := {| world := w; calls := [] |} |}.
End FakeEcho.

(** ** More to run the code with *)

(** A reference parser that, like the real one, refuses upper-case letters in
    a repository name. *)
Module LowercaseReference.
Definition is_upper (c : ascii) : bool :=
  let n := nat_of_ascii c in ((65 <=? n) && (n <=? 90))%nat.

Fixpoint has_upper (s : string) : bool :=
  match s with
  | EmptyString => false
  | String c s' => is_upper c || has_upper s'
  end.

#[export] Instance pkg : ReferencePkg := {|
  ParseNormalizedNamed s :=
    if has_upper s
    then inr "invalid reference format: repository name must be lowercase"
    else inl ("docker.io/library/" ++ s)%string
|}.
End LowercaseReference.

(** The in-memory runtime with an inspect that carries no [Config]. *)
Module ConfiglessDocker.
Import FakeDocker.

Definition without_config {T : ApiTypes} (js : ContainerJSON.t)
  : ContainerJSON.t :=
  ContainerJSON.mk (ContainerJSON.Base js) None
                   (ContainerJSON.NetworkSettings js).

#[export] Instance client {T : ApiTypes} : DockerClient (@World T) := {|
  ContainerList := fContainerList;
  ImagePull := fImagePull;
  CopyDiscard := fCopyDiscard;
  Close := fClose;
  ContainerInspect i w :=
    let (w', r) := fContainerInspect i w in
    (w', (without_config (fst r), snd r));
  ContainerRemove := fContainerRemove;
  ContainerCreate := fContainerCreate;
  ContainerStart := fContainerStart;
  ImageRemove := fImageRemove
|}.
End ConfiglessDocker.

Module MoreSamples.
Import FakeDocker.

(** Two containers of [app] behind one of another repository. *)
Definition three_containers (f : @Call text_types -> bool)
  : @World text_types :=
  a_world [a_container "c0" "db" "postgres:9.6" "sha256:pg";
           a_container "c1" "web" "app:1.2.0" "sha256:old";
           a_container "c2" "worker" "app:1.1.0" "sha256:older"] f.

(** The create of the second replacement fails: it is the create called for
    the name [worker]. *)
Definition second_create_fails : @Call text_types -> bool :=
  fun c => match c with
           | CContainerCreate _ _ _ nm => (nm =? "worker")%string
           | _ => false
           end.
End MoreSamples.

(** * Properties *)

(** ** Strings *)

Lemma ascii_eqb_eq_dec (a b : ascii) : {Ascii.eqb a b = true} + {Ascii.eqb a b = false}.
Proof. destruct (Ascii.eqb a b); auto. Qed.

Lemma contains_append (c : ascii) (a b : string) :
  strings.contains c (a ++ b) = strings.contains c a || strings.contains c b.
Proof.
  induction a as [|d a IH]; simpl; [reflexivity|].
  rewrite IH. now rewrite orb_assoc.
Qed.

Lemma Split_not_nil (s : string) (sep : ascii) : strings.Split s sep <> [].
Proof.
  destruct s as [|c s]; simpl; [discriminate|].
  destruct (Ascii.eqb c sep); [discriminate|].
  destruct (strings.Split s sep); discriminate.
Qed.

Lemma Split_without_sep (s : string) (sep : ascii) :
  strings.contains sep s = false -> strings.Split s sep = [s].
Proof.
  induction s as [|c s IH]; simpl; intros H; [reflexivity|].
  apply orb_false_iff in H. destruct H as [Hc Hs].
  rewrite Hc, (IH Hs). reflexivity.
Qed.

Lemma Split_at_first_sep (a b : string) (sep : ascii) :
  strings.contains sep a = false ->
  strings.Split (a ++ String sep b) sep = a :: strings.Split b sep.
Proof.
  induction a as [|c a IH]; simpl; intros H.
  - now rewrite Ascii.eqb_refl.
  - apply orb_false_iff in H. destruct H as [Hc Ha].
    rewrite Hc, (IH Ha). reflexivity.
Qed.

Lemma Split_head_without_sep (s : string) (sep : ascii) :
  strings.contains sep (nth 0 (strings.Split s sep) "") = false.
Proof.
  induction s as [|c s IH]; simpl; [reflexivity|].
  destruct (Ascii.eqb c sep) eqn:E; simpl; [reflexivity|].
  destruct (strings.Split s sep) as [|p ps] eqn:Es; simpl in *.
  - now rewrite E.
  - now rewrite E, IH.
Qed.

Lemma Split_contains (s : string) (sep c : ascii) :
  Ascii.eqb c sep = false ->
  strings.contains c s = existsb (strings.contains c) (strings.Split s sep).
Proof.
  intros Hc. induction s as [|d s IH]; simpl; [reflexivity|].
  destruct (Ascii.eqb d sep) eqn:E; simpl.
  - apply Ascii.eqb_eq in E. subst d.
    rewrite Ascii.eqb_sym, Hc. simpl. exact IH.
  - destruct (strings.Split s sep) as [|p ps] eqn:Es; simpl in *.
    + rewrite IH. now rewrite !orb_false_r.
    + rewrite IH. now rewrite orb_assoc.
Qed.

Lemma substring_prefix (a b : string) :
  substring 0 (String.length a) (a ++ b) = a.
Proof.
  induction a as [|c a IH]; simpl.
  - destruct b; reflexivity.
  - now rewrite IH.
Qed.

Lemma substring_all (s : string) : substring 0 (String.length s) s = s.
Proof. induction s as [|c s IH]; simpl; [reflexivity | now rewrite IH]. Qed.

Lemma substring_suffix (a b : string) :
  substring (String.length a) (String.length b) (a ++ b) = b.
Proof.
  induction a as [|c a IH]; simpl; [apply substring_all | exact IH].
Qed.

Lemma substring_cover (n : nat) (s : string) :
  n <= String.length s ->
  (substring 0 n s ++ substring n (String.length s - n) s)%string = s.
Proof.
  revert s. induction n as [|n IH]; intros s Hn.
  - rewrite Nat.sub_0_r, substring_all. destruct s; reflexivity.
  - destruct s as [|c s]; simpl in *; [lia|].
    rewrite IH by lia. reflexivity.
Qed.

Lemma append_length (a b : string) :
  String.length (a ++ b) = String.length a + String.length b.
Proof. induction a as [|c a IH]; simpl; [reflexivity | now rewrite IH]. Qed.

Lemma HasSuffix_append (p suffix : string) :
  strings.HasSuffix (p ++ suffix) suffix = true.
Proof.
  unfold strings.HasSuffix. rewrite append_length.
  replace (String.length p + String.length suffix - String.length suffix)
    with (String.length p) by lia.
  rewrite substring_suffix, String.eqb_refl, andb_true_r.
  apply Nat.leb_le. lia.
Qed.

Lemma HasSuffix_inv (s suffix : string) :
  strings.HasSuffix s suffix = true -> exists p, s = (p ++ suffix)%string.
Proof.
  unfold strings.HasSuffix. intros H.
  apply andb_true_iff in H. destruct H as [Hl He].
  apply Nat.leb_le in Hl. apply String.eqb_eq in He.
  exists (substring 0 (String.length s - String.length suffix) s).
  pose proof (substring_cover (String.length s - String.length suffix) s) as Hc.
  replace (String.length s - (String.length s - String.length suffix))
    with (String.length suffix) in Hc by lia.
  rewrite He in Hc. symmetry. apply Hc. lia.
Qed.

Lemma TrimSuffix_append (p suffix : string) :
  strings.TrimSuffix (p ++ suffix) suffix = p.
Proof.
  unfold strings.TrimSuffix. rewrite HasSuffix_append, append_length.
  replace (String.length p + String.length suffix - String.length suffix)
    with (String.length p) by lia.
  apply substring_prefix.
Qed.

(** The text after the last separator is determined by the whole. *)
Lemma after_last_sep (sep : ascii) (a a' b b' : string) :
  (a ++ String sep b)%string = (a' ++ String sep b')%string ->
  strings.contains sep b = false -> strings.contains sep b' = false ->
  b = b'.
Proof.
  revert a'. induction a as [|c a IH]; intros a' E Hb Hb'.
  - destruct a' as [|c' a']; simpl in E.
    + now inversion E.
    + inversion E; subst. rewrite contains_append in Hb. simpl in Hb.
      rewrite Ascii.eqb_refl, orb_true_r in Hb. discriminate.
  - destruct a' as [|c' a']; simpl in E.
    + inversion E; subst. rewrite contains_append in Hb'. simpl in Hb'.
      rewrite Ascii.eqb_refl, orb_true_r in Hb'. discriminate.
    + inversion E; subst. eapply IH; eauto.
Qed.

Lemma TrimSuffix_latest_other (repo tag : string) :
  strings.contains colon tag = false -> tag <> latest ->
  strings.TrimSuffix (repo ++ ":" ++ tag) (String colon latest)
  = (repo ++ ":" ++ tag)%string.
Proof.
  intros Hc Hn. unfold strings.TrimSuffix.
  destruct (strings.HasSuffix (repo ++ ":" ++ tag) (String colon latest)) eqn:E;
    [|reflexivity].
  apply HasSuffix_inv in E. destruct E as [p E].
  exfalso. apply Hn.
  eapply (after_last_sep colon repo p tag latest); eauto.
Qed.

Lemma TrimSuffix_latest_same (repo : string) :
  strings.TrimSuffix (repo ++ ":" ++ latest) (String colon latest) = repo.
Proof. apply (TrimSuffix_append repo (String colon latest)). Qed.

(** ** The split of an image reference *)

Lemma splitImage_without_colon (image : string) :
  strings.contains colon image = false -> splitImage image = (image, latest).
Proof.
  intros H. unfold splitImage. rewrite (Split_without_sep _ _ H). reflexivity.
Qed.

Lemma splitImage_at_first_colon (a b : string) :
  strings.contains colon a = false ->
  splitImage (a ++ String colon b) =
  (a, let t := nth 0 (strings.Split b colon) "" in
      if (t =? "")%string then latest else t).
Proof.
  intros H. unfold splitImage. rewrite (Split_at_first_sep _ _ _ H).
  destruct (strings.Split b colon) as [|t ts] eqn:E.
  - now apply Split_not_nil in E.
  - reflexivity.
Qed.

Lemma splitImage_repo_without_colon (image : string) :
  strings.contains colon (fst (splitImage image)) = false.
Proof. unfold splitImage. simpl. apply Split_head_without_sep. Qed.

Lemma splitImage_tag_not_empty (image : string) :
  snd (splitImage image) <> "".
Proof.
  unfold splitImage. simpl.
  destruct ((if (1 <? length (strings.Split image colon))%nat
             then nth 1 (strings.Split image colon) "" else "") =? "")%string eqn:E.
  - discriminate.
  - intros H. rewrite H in E. discriminate.
Qed.

Lemma splitImage_repo_tag (repo tag : string) :
  strings.contains colon repo = false ->
  strings.contains colon tag = false -> tag <> "" ->
  splitImage (repo ++ ":" ++ tag) = (repo, tag).
Proof.
  intros Hr Ht Hn. change (repo ++ ":" ++ tag)%string with (repo ++ String colon tag)%string.
  rewrite (splitImage_at_first_colon _ _ Hr), (Split_without_sep _ _ Ht). simpl.
  destruct (tag =? "")%string eqn:E; [|reflexivity].
  apply String.eqb_eq in E. contradiction.
Qed.

(** C2 (as amended): the reference is split on every [':'], the first piece is
    [cRepo] and the second piece is [cTag], with [latest] when there is no
    second piece or it is empty.  So a reference without [':'] gives
    [(reference, latest)], a reference [a:b] gives [(a, b)], and a reference
    [a:b:rest] with more than one [':'] gives [cRepo = a], the text before the
    first [':'], and [cTag = b], the text between the first two. *)
Theorem C2_splitImage_first_colon (a b rest : string) :
  strings.contains colon a = false ->
  strings.contains colon b = false ->
  splitImage a = (a, latest) /\
  splitImage (a ++ ":" ++ b) = (a, if (b =? "")%string then latest else b) /\
  splitImage (a ++ ":" ++ b ++ ":" ++ rest)
  = (a, if (b =? "")%string then latest else b).
Proof.
  intros Ha Hb. split; [|split].
  - now apply splitImage_without_colon.
  - change (a ++ ":" ++ b)%string with (a ++ String colon b)%string.
    rewrite (splitImage_at_first_colon _ _ Ha), (Split_without_sep _ _ Hb).
    reflexivity.
  - change (a ++ ":" ++ b ++ ":" ++ rest)%string
      with (a ++ String colon (b ++ String colon rest))%string.
    rewrite (splitImage_at_first_colon _ _ Ha), (Split_at_first_sep _ _ _ Hb).
    reflexivity.
Qed.

Lemma C2_splitImage_first_colon_witness :
  splitImage "app" = ("app", latest) /\
  splitImage "app:1.2.0" = ("app", "1.2.0") /\
  splitImage "app:1.2.0:x" = ("app", "1.2.0").
Proof.
  apply (C2_splitImage_first_colon "app" "1.2.0" "x"); reflexivity.
Defined.

(** C2 as stated fails: for a reference with a registry port the code's
    [cRepo] is the text before the first [':'] and its [cTag] the text between
    the first two, not the two sides of the last [':']. *)
Lemma C2_counterexample_registry_port :
  splitImage "localhost:5000/app:1.2.0" = ("localhost", "5000/app") /\
  splitLast "localhost:5000/app:1.2.0" = ("localhost:5000/app", "1.2.0") /\
  splitImage "localhost:5000/app:1.2.0" <> splitLast "localhost:5000/app:1.2.0".
Proof. repeat split. discriminate. Qed.

(** ** The selection loop *)

Section Selection.
Context {sv : SemverPkg}.

Lemma selectStep_toUpdate (rev : Revision) (repo tag : string) (st : SelState)
      (cnt : Container.t) :
  toUpdate (locals (selectStep rev repo tag st cnt))
  = toUpdate st ++ (if upd rev repo tag (Container.Image cnt) then [cnt] else []).
Proof.
  unfold upd.
  destruct rev;
    unfold selectStep, Rev1.selectStep, Rev2.selectStep, Rev1.finish;
    destruct (splitImage (Container.Image cnt)) as [cRepo cTag];
    destruct (cRepo =? repo)%string; simpl; try now rewrite app_nil_r.
  - destruct (cTag =? latest)%string.
    + destruct (tag =? cTag)%string; simpl; now rewrite ?app_nil_r.
    + destruct (NewVersion cTag) as [cVer|]; simpl; [|now rewrite app_nil_r].
      destruct (NewVersion tag) as [ver|]; simpl; [|now rewrite app_nil_r].
      destruct ((Prerelease cVer =? Prerelease ver)%string &&
                (Metadata cVer =? Metadata ver)%string && LessThan cVer ver);
        simpl; now rewrite ?app_nil_r.
  - destruct (cTag =? latest)%string.
    + destruct (tag =? cTag)%string; simpl; now rewrite ?app_nil_r.
    + destruct (NewVersion cTag) as [cVer|]; simpl; [|now rewrite app_nil_r].
      destruct (NewVersion tag) as [ver|]; simpl; [|now rewrite app_nil_r].
      destruct (LessThan cVer ver); simpl; now rewrite ?app_nil_r.
Qed.

(** The first revision panics exactly where it selects on the [latest] path;
    the second revision never does. *)
Lemma selectStep_is_panic (rev : Revision) (repo tag : string) (st : SelState)
      (cnt : Container.t) :
  is_panic (selectStep rev repo tag st cnt)
  = match rev with
    | First => upd First repo tag (Container.Image cnt) &&
               (snd (splitImage (Container.Image cnt)) =? latest)%string
    | Second => false
    end.
Proof.
  unfold upd.
  destruct rev;
    unfold selectStep, Rev1.selectStep, Rev2.selectStep, Rev1.finish;
    destruct (splitImage (Container.Image cnt)) as [cRepo cTag]; simpl;
    destruct (cRepo =? repo)%string; simpl; try reflexivity.
  - destruct (cTag =? latest)%string.
    + destruct (tag =? cTag)%string; reflexivity.
    + destruct (NewVersion cTag) as [cVer|]; simpl; [|reflexivity].
      destruct (NewVersion tag) as [ver|]; simpl; [|reflexivity].
      destruct ((Prerelease cVer =? Prerelease ver)%string &&
                (Metadata cVer =? Metadata ver)%string && LessThan cVer ver);
        reflexivity.
  - destruct (if (cTag =? latest)%string then (tag =? cTag)%string
              else match NewVersion cTag, NewVersion tag with
                   | Some cVer, Some ver => LessThan cVer ver
                   | _, _ => false
                   end); reflexivity.
Qed.

Lemma selected_iff_upd (rev : Revision) (repo tag : string) (st : SelState)
      (cnt : Container.t) :
  selected st (selectStep rev repo tag st cnt) cnt
  <-> upd rev repo tag (Container.Image cnt) = true.
Proof.
  unfold selected. rewrite selectStep_toUpdate.
  destruct (upd rev repo tag (Container.Image cnt)); split; intros H;
    try reflexivity; try discriminate.
  apply app_inv_head in H. discriminate.
Qed.

Lemma not_selected_iff_upd (rev : Revision) (repo tag : string) (st : SelState)
      (cnt : Container.t) :
  toUpdate (locals (selectStep rev repo tag st cnt)) = toUpdate st
  <-> upd rev repo tag (Container.Image cnt) = false.
Proof.
  rewrite selectStep_toUpdate.
  destruct (upd rev repo tag (Container.Image cnt)); split; intros H;
    try reflexivity; try discriminate.
  - rewrite <- (app_nil_r (toUpdate st)) in H at 2.
    apply app_inv_head in H. discriminate.
  - now rewrite app_nil_r.
Qed.

End Selection.

Section SelectionClaims.
Context {sv : SemverPkg}.

Lemma upd_of_versions (rev : Revision) (repo tag image : string)
      (cVer ver : Version) :
  rejects_latest ->
  fst (splitImage image) = repo ->
  NewVersion (snd (splitImage image)) = Some cVer ->
  NewVersion tag = Some ver ->
  upd rev repo tag image
  = match rev with
    | First => (Prerelease cVer =? Prerelease ver)%string &&
               (Metadata cVer =? Metadata ver)%string && LessThan cVer ver
    | Second => LessThan cVer ver
    end.
Proof.
  unfold upd, rejects_latest. intros Hl Hr Hc Ht.
  destruct (splitImage image) as [cRepo cTag]; simpl in *. subst cRepo.
  rewrite String.eqb_refl. simpl.
  destruct (cTag =? latest)%string eqn:E.
  - apply String.eqb_eq in E. subst cTag. congruence.
  - rewrite Hc, Ht. reflexivity.
Qed.

Lemma upd_on_latest (rev : Revision) (repo tag image : string) :
  fst (splitImage image) = repo ->
  snd (splitImage image) = latest ->
  upd rev repo tag image = (tag =? latest)%string.
Proof.
  unfold upd. intros Hr Hl.
  destruct (splitImage image) as [cRepo cTag]; simpl in *. subst.
  now rewrite !String.eqb_refl.
Qed.

Lemma upd_parse_failure (rev : Revision) (repo tag image : string) :
  snd (splitImage image) <> latest ->
  NewVersion (snd (splitImage image)) = None \/ NewVersion tag = None ->
  upd rev repo tag image = false.
Proof.
  unfold upd. intros Hl Hp.
  destruct (splitImage image) as [cRepo cTag]; simpl in *.
  apply String.eqb_neq in Hl. rewrite Hl.
  destruct Hp as [Hp|Hp]; rewrite Hp.
  - apply andb_false_r.
  - destruct (NewVersion cTag); apply andb_false_r.
Qed.

(** C1 (as amended): for a container of the requested repository whose
    current tag and the target tag both parse, the first revision selects the
    container if and only if prerelease and build metadata of the two versions
    are equal and the current version is less than the target; the second
    revision has no such gate and selects it if and only if the current
    version is less than the target. *)
Theorem C1_version_gate (repo tag : string) (st : SelState) (cnt : Container.t)
        (cVer ver : Version) :
  rejects_latest ->
  fst (splitImage (Container.Image cnt)) = repo ->
  NewVersion (snd (splitImage (Container.Image cnt))) = Some cVer ->
  NewVersion tag = Some ver ->
  (selected st (selectStep First repo tag st cnt) cnt
   <-> Prerelease cVer = Prerelease ver /\ Metadata cVer = Metadata ver /\
       LessThan cVer ver = true) /\
  (selected st (selectStep Second repo tag st cnt) cnt
   <-> LessThan cVer ver = true).
Proof.
  intros Hl Hr Hc Ht. split.
  - rewrite selected_iff_upd, (upd_of_versions First _ _ _ _ _ Hl Hr Hc Ht).
    rewrite !andb_true_iff, !String.eqb_eq. tauto.
  - rewrite selected_iff_upd, (upd_of_versions Second _ _ _ _ _ Hl Hr Hc Ht).
    tauto.
Qed.

(** C3: a container of the requested repository whose current tag is [latest]
    is selected if and only if the target tag is [latest] too (so never for
    another target tag), and a container with another current tag is never
    selected when the target tag is [latest].  Both revisions. *)
Theorem C3_latest_rule (rev : Revision) (repo tag : string) (st : SelState)
        (cnt : Container.t) :
  rejects_latest ->
  fst (splitImage (Container.Image cnt)) = repo ->
  (snd (splitImage (Container.Image cnt)) = latest ->
   (selected st (selectStep rev repo tag st cnt) cnt <-> tag = latest)) /\
  (snd (splitImage (Container.Image cnt)) <> latest -> tag = latest ->
   ~ selected st (selectStep rev repo tag st cnt) cnt).
Proof.
  intros Hl Hr. split.
  - intros Hc. rewrite selected_iff_upd, (upd_on_latest _ _ _ _ Hr Hc).
    apply String.eqb_eq.
  - intros Hc Ht Hsel. apply selected_iff_upd in Hsel.
    rewrite upd_parse_failure in Hsel;
      [discriminate | exact Hc | right; subst tag; exact Hl].
Qed.

(** C4: what the first revision does on the [latest] path.  With the current
    and the target tag both [latest] the container is appended and the log
    statement then calls [String()] on [cVer] and [ver], which are nil on
    this path: the step panics. *)
Theorem C4_latest_selection_panics (repo tag : string) (st : SelState)
        (cnt : Container.t) :
  fst (splitImage (Container.Image cnt)) = repo ->
  snd (splitImage (Container.Image cnt)) = latest ->
  tag = latest ->
  selectStep First repo tag st cnt
  = Panic {| toUpdate := toUpdate st ++ [cnt];
             containerImages := containerImages st ++ [Container.Image cnt] |}.
Proof.
  intros Hr Hc Ht. unfold selectStep, Rev1.selectStep, Rev1.finish.
  destruct (splitImage (Container.Image cnt)) as [cRepo cTag]; simpl in *.
  subst. now rewrite !String.eqb_refl.
Qed.

(** The second revision logs before the append and passes the pointers
    themselves: on the same input it selects and goes on. *)
Lemma second_revision_latest_selection (repo tag : string) (st : SelState)
      (cnt : Container.t) :
  fst (splitImage (Container.Image cnt)) = repo ->
  snd (splitImage (Container.Image cnt)) = latest ->
  tag = latest ->
  selectStep Second repo tag st cnt
  = Next {| toUpdate := toUpdate st ++ [cnt];
            containerImages := containerImages st ++ [Container.Image cnt] |}.
Proof.
  intros Hr Hc Ht. unfold selectStep, Rev2.selectStep.
  destruct (splitImage (Container.Image cnt)) as [cRepo cTag]; simpl in *.
  subst. now rewrite !String.eqb_refl.
Qed.

(** *** The loop as a whole *)

Lemma selectStep_unselected (rev : Revision) (repo tag : string) (st : SelState)
      (cnt : Container.t) :
  upd rev repo tag (Container.Image cnt) = false ->
  selectStep rev repo tag st cnt
  = Next {| toUpdate := toUpdate st;
            containerImages := containerImages st ++ [Container.Image cnt] |}.
Proof.
  unfold upd. intros H.
  destruct rev;
    unfold selectStep, Rev1.selectStep, Rev2.selectStep, Rev1.finish;
    destruct (splitImage (Container.Image cnt)) as [cRepo cTag];
    destruct (cRepo =? repo)%string; simpl in *; try reflexivity.
  - destruct (cTag =? latest)%string.
    + now rewrite H.
    + destruct (NewVersion cTag) as [cVer|]; [|reflexivity].
      destruct (NewVersion tag) as [ver|]; [|reflexivity].
      now rewrite H.
  - now rewrite H.
Qed.

Lemma selectStep_same_selection (rev : Revision) (repo tag : string)
      (st st' : SelState) (cnt : Container.t) :
  toUpdate st = toUpdate st' ->
  same_selection (selectStep rev repo tag st cnt) (selectStep rev repo tag st' cnt).
Proof.
  intros H. split.
  - now rewrite !selectStep_is_panic.
  - now rewrite !selectStep_toUpdate, H.
Qed.

Lemma selectLoop_same_selection (rev : Revision) (repo tag : string)
      (containers : list Container.t) :
  forall st st', toUpdate st = toUpdate st' ->
  same_selection (selectLoop rev repo tag st containers)
                 (selectLoop rev repo tag st' containers).
Proof.
  induction containers as [|cnt rest IH]; intros st st' H; simpl.
  - split; [reflexivity | exact H].
  - destruct (selectStep_same_selection rev repo tag st st' cnt H) as [Hp Hu].
    destruct (selectStep rev repo tag st cnt) as [s|s],
             (selectStep rev repo tag st' cnt) as [s'|s']; simpl in *;
      try discriminate.
    + now apply IH.
    + split; [reflexivity | exact Hu].
Qed.

Lemma selectLoop_app (rev : Revision) (repo tag : string)
      (pre post : list Container.t) :
  forall st,
  selectLoop rev repo tag st (pre ++ post)
  = match selectLoop rev repo tag st pre with
    | Next st' => selectLoop rev repo tag st' post
    | Panic st' => Panic st'
    end.
Proof.
  induction pre as [|cnt pre IH]; intros st; simpl; [reflexivity|].
  destruct (selectStep rev repo tag st cnt); [apply IH | reflexivity].
Qed.

(** When the loop runs to its end, [toUpdate] holds, in listing order, the
    containers for which [upd] was true. *)
Lemma selectLoop_Next (rev : Revision) (repo tag : string)
      (containers : list Container.t) :
  forall st sel,
  selectLoop rev repo tag st containers = Next sel ->
  toUpdate sel
  = toUpdate st
    ++ filter (fun c => upd rev repo tag (Container.Image c)) containers.
Proof.
  induction containers as [|cnt rest IH]; intros st sel H; simpl in *.
  - inversion H; subst. now rewrite app_nil_r.
  - pose proof (selectStep_toUpdate rev repo tag st cnt) as Hs.
    destruct (selectStep rev repo tag st cnt) as [s|s]; [|discriminate].
    simpl in Hs. rewrite (IH _ _ H), Hs.
    destruct (upd rev repo tag (Container.Image cnt)); simpl.
    + now rewrite <- app_assoc.
    + now rewrite app_nil_r.
Qed.

(** The first revision reaches the end of the loop only if nothing was
    selected on the [latest] path. *)
Lemma selectLoop_Next_first (repo tag : string) (containers : list Container.t) :
  forall st sel,
  selectLoop First repo tag st containers = Next sel ->
  forall c, In c containers ->
  upd First repo tag (Container.Image c) = true ->
  snd (splitImage (Container.Image c)) <> latest.
Proof.
  induction containers as [|cnt rest IH]; intros st sel H c Hin Hu; simpl in *.
  - contradiction.
  - pose proof (selectStep_is_panic First repo tag st cnt) as Hp.
    destruct (selectStep First repo tag st cnt) as [s|s] eqn:E; [|discriminate].
    simpl in Hp. destruct Hin as [->|Hin].
    + rewrite Hu in Hp. simpl in Hp. symmetry in Hp.
      now apply String.eqb_neq in Hp.
    + eapply IH; eauto.
Qed.

Lemma selectLoop_all_unselected (rev : Revision) (repo tag : string)
      (containers : list Container.t) :
  (forall c, In c containers -> upd rev repo tag (Container.Image c) = false) ->
  forall st,
  selectLoop rev repo tag st containers
  = Next {| toUpdate := toUpdate st;
            containerImages :=
              containerImages st ++ map Container.Image containers |}.
Proof.
  induction containers as [|cnt rest IH]; intros H st; simpl.
  - rewrite app_nil_r. now destruct st.
  - rewrite selectStep_unselected by (apply H; now left).
    rewrite IH by (intros c Hc; apply H; now right).
    simpl. now rewrite <- app_assoc.
Qed.

End SelectionClaims.

Lemma Masterminds_rejects_latest : @rejects_latest Masterminds.pkg.
Proof. reflexivity. Qed.

Lemma C1_version_gate_witness :
  (selected sel_init
     (selectStep (sv := Masterminds.pkg) First "app" "1.3.0" sel_init
                 Samples.app_1_2_0) Samples.app_1_2_0
   <-> Masterminds.pre Samples.v1_2_0 = Masterminds.pre Samples.v1_3_0 /\
       Masterminds.metadata Samples.v1_2_0 = Masterminds.metadata Samples.v1_3_0 /\
       Masterminds.LessThan_ Samples.v1_2_0 Samples.v1_3_0 = true) /\
  (selected sel_init
     (selectStep (sv := Masterminds.pkg) Second "app" "1.3.0" sel_init
                 Samples.app_1_2_0) Samples.app_1_2_0
   <-> Masterminds.LessThan_ Samples.v1_2_0 Samples.v1_3_0 = true).
Proof.
  apply (C1_version_gate (sv := Masterminds.pkg) "app" "1.3.0" sel_init
           Samples.app_1_2_0 Samples.v1_2_0 Samples.v1_3_0); reflexivity.
Defined.

(** C1 as stated fails on the second revision: a container on [1.2.0-beta]
    and the target [1.3.0] both parse, their prerelease components differ,
    and the container is selected. *)
Lemma C1_counterexample_second_revision :
  NewVersion (SemverPkg := Masterminds.pkg) "1.2.0-beta" = Some Samples.v1_2_0_beta /\
  NewVersion (SemverPkg := Masterminds.pkg) "1.3.0" = Some Samples.v1_3_0 /\
  Prerelease (SemverPkg := Masterminds.pkg) Samples.v1_2_0_beta
  <> Prerelease (SemverPkg := Masterminds.pkg) Samples.v1_3_0 /\
  selected sel_init
    (selectStep (sv := Masterminds.pkg) Second "app" "1.3.0" sel_init
                Samples.app_1_2_0_beta) Samples.app_1_2_0_beta.
Proof. repeat split. discriminate. Qed.

Lemma C3_latest_rule_witness :
  (snd (splitImage (Container.Image Samples.app_latest)) = latest ->
   (selected sel_init
      (selectStep (sv := Masterminds.pkg) Second "app" "1.3.0" sel_init
                  Samples.app_latest) Samples.app_latest
    <-> "1.3.0" = latest)) /\
  (snd (splitImage (Container.Image Samples.app_latest)) <> latest ->
   "1.3.0" = latest ->
   ~ selected sel_init
       (selectStep (sv := Masterminds.pkg) Second "app" "1.3.0" sel_init
                   Samples.app_latest) Samples.app_latest).
Proof.
  apply (C3_latest_rule (sv := Masterminds.pkg) Second "app" "1.3.0" sel_init
           Samples.app_latest); reflexivity.
Defined.

Lemma C4_latest_selection_panics_witness :
  selectStep (sv := Masterminds.pkg) First "app" "latest" sel_init
             Samples.app_latest
  = Panic {| toUpdate := [Samples.app_latest];
             containerImages := ["app:latest"] |}.
Proof.
  apply (C4_latest_selection_panics (sv := Masterminds.pkg) "app" "latest"
           sel_init Samples.app_latest); reflexivity.
Defined.

(** ** The run as a whole *)

Section RunClaims.
Context {T : ApiTypes} {W : Type} {cli : DockerClient W}.
Context {sv : SemverPkg} {rf : ReferencePkg}.

Lemma pullAndRecreate_same_selection (r1 r2 : StepRes) :
  same_selection r1 r2 ->
  forall (fullRepo : string) (st : St W),
  pullAndRecreate fullRepo r1 st = pullAndRecreate fullRepo r2 st.
Proof.
  unfold same_selection. intros [Hp Hu] fullRepo st.
  destruct r1 as [s1|s1], r2 as [s2|s2]; simpl in *; try discriminate.
  - now rewrite Hu.
  - reflexivity.
Qed.

(** C8: where a parse is attempted (the current tag is not [latest]) and the
    current tag or the target tag does not parse, the iteration goes on to the
    next container with [toUpdate] as it was, neither an error nor a panic;
    the other containers are selected as if this one were not listed, and so
    is everything the function does after the loop. *)
Theorem C8_parse_failure_skips (rev : Revision) (repo tag : string)
        (st : SelState) (cnt : Container.t) (pre post : list Container.t)
        (fullRepo : string) (s0 : St W) :
  snd (splitImage (Container.Image cnt)) <> latest ->
  NewVersion (snd (splitImage (Container.Image cnt))) = None \/
  NewVersion tag = None ->
  selectStep rev repo tag st cnt
  = Next {| toUpdate := toUpdate st;
            containerImages := containerImages st ++ [Container.Image cnt] |} /\
  same_selection (selectLoop rev repo tag sel_init (pre ++ cnt :: post))
                 (selectLoop rev repo tag sel_init (pre ++ post)) /\
  pullAndRecreate fullRepo (selectLoop rev repo tag sel_init (pre ++ cnt :: post)) s0
  = pullAndRecreate fullRepo (selectLoop rev repo tag sel_init (pre ++ post)) s0.
Proof.
  intros Hl Hp.
  pose proof (upd_parse_failure rev repo tag _ Hl Hp) as Hu.
  assert (Hsame : same_selection
                    (selectLoop rev repo tag sel_init (pre ++ cnt :: post))
                    (selectLoop rev repo tag sel_init (pre ++ post))).
  { rewrite !selectLoop_app.
    destruct (selectLoop rev repo tag sel_init pre) as [s|s].
    - simpl. rewrite (selectStep_unselected _ _ _ _ _ Hu).
      now apply selectLoop_same_selection.
    - split; reflexivity. }
  split; [|split].
  - now apply selectStep_unselected.
  - exact Hsame.
  - now apply pullAndRecreate_same_selection.
Qed.

Lemma updateContainer_nothing_selected (rev : Revision) (repo tag : string)
      (w w' : W) (containers : list Container.t) (sel : SelState) :
  repo <> "" -> tag <> "" ->
  ContainerList w = (w', inl containers) ->
  selectLoop rev repo tag sel_init containers = Next sel ->
  toUpdate sel = [] ->
  run (updateContainer rev repo tag) w
  = ({| world := w'; calls := [CContainerList] |}, Done tt).
Proof.
  intros Hr Ht Hlist Hsel Hempty.
  apply String.eqb_neq in Hr. apply String.eqb_neq in Ht.
  unfold run, updateContainer. rewrite Hr, Ht. simpl.
  unfold bind, call. simpl. rewrite Hlist, Hsel.
  unfold pullAndRecreate. rewrite Hempty. reflexivity.
Qed.

(** C7: when the loop ends with an empty [toUpdate], the function returns nil
    and the listing is the only call it has made: no pull, and no inspect,
    remove, create or start. *)
Theorem C7_empty_selection (rev : Revision) (repo tag : string) (w w' : W)
        (containers : list Container.t) (sel : SelState) :
  repo <> "" -> tag <> "" ->
  ContainerList w = (w', inl containers) ->
  selectLoop rev repo tag sel_init containers = Next sel ->
  toUpdate sel = [] ->
  run (updateContainer rev repo tag) w
  = ({| world := w'; calls := [CContainerList] |}, Done tt).
Proof. exact (updateContainer_nothing_selected rev repo tag w w' containers sel). Qed.

(** C9: when [ImagePull] returns an error the function returns the error
    [pull image ... error: ...], and the calls it has made are the listing and
    the pull: no inspect, remove, create or start. *)
Theorem C9_pull_failure (rev : Revision) (repo tag : string) (w w1 w2 : W)
        (containers : list Container.t) (sel : SelState) (pn e : string) :
  repo <> "" -> tag <> "" ->
  ContainerList w = (w1, inl containers) ->
  selectLoop rev repo tag sel_init containers = Next sel ->
  toUpdate sel <> [] ->
  ParseNormalizedNamed (repo ++ ":" ++ tag) = inl pn ->
  ImagePull pn w1 = (w2, Some e) ->
  run (updateContainer rev repo tag) w
  = ({| world := w2; calls := [CContainerList; CImagePull pn] |},
     Failed ("pull image " ++ (repo ++ ":" ++ tag) ++ " error: " ++ e)%string) /\
  forallb (fun c => negb (touches_container c))
          (calls (fst (run (updateContainer rev repo tag) w))) = true.
Proof.
  intros Hr Ht Hlist Hsel Hne Hparse Hpull.
  apply String.eqb_neq in Hr. apply String.eqb_neq in Ht.
  assert (E : run (updateContainer rev repo tag) w
              = ({| world := w2; calls := [CContainerList; CImagePull pn] |},
                 Failed ("pull image " ++ (repo ++ ":" ++ tag) ++ " error: " ++ e)%string)).
  { unfold run, updateContainer. rewrite Hr, Ht. simpl.
    unfold bind, call. simpl. rewrite Hlist, Hsel.
    unfold pullAndRecreate.
    destruct (toUpdate sel) as [|c cs]; [contradiction|]. simpl.
    simpl in Hparse. rewrite Hparse.
    unfold bind, call. simpl. rewrite Hpull. reflexivity. }
  split; [exact E | now rewrite E].
Qed.

End RunClaims.

(** ** The recreation of one container *)

Section RecreateClaims.
Context {T : ApiTypes} {W : Type} {cli : DockerClient W}.
Context {sv : SemverPkg} {rf : ReferencePkg}.

(** The image a replacement is created from. *)
Lemma new_image_latest (repo : string) :
  strings.TrimSuffix (repo ++ ":" ++ latest) (String colon latest) = repo.
Proof. apply TrimSuffix_latest_same. Qed.

Lemma upd_true_tag (rev : Revision) (repo tag image : string) :
  upd rev repo tag image = true ->
  fst (splitImage image) = repo /\
  ((snd (splitImage image) = latest /\ tag = latest) \/
   (snd (splitImage image) <> latest /\ exists ver, NewVersion tag = Some ver)).
Proof.
  unfold upd. destruct (splitImage image) as [cRepo cTag]; simpl.
  intros H. apply andb_true_iff in H. destruct H as [Hr H].
  apply String.eqb_eq in Hr. split; [exact Hr|].
  destruct (cTag =? latest)%string eqn:E.
  - apply String.eqb_eq in E. apply String.eqb_eq in H. left. split; congruence.
  - apply String.eqb_neq in E. right. split; [exact E|].
    destruct (NewVersion cTag); [|discriminate].
    destruct (NewVersion tag) as [ver|]; [|discriminate]. now exists ver.
Qed.

Lemma new_image (rev : Revision) (repo tag image : string) :
  parsed_without_colon ->
  upd rev repo tag image = true ->
  strings.TrimSuffix (repo ++ ":" ++ tag) (String colon latest)
  = if (tag =? latest)%string then repo else (repo ++ ":" ++ tag)%string.
Proof.
  intros Hcolon Hu.
  destruct (tag =? latest)%string eqn:E.
  - apply String.eqb_eq in E. subst tag. apply new_image_latest.
  - apply String.eqb_neq in E.
    destruct (upd_true_tag _ _ _ _ Hu) as [_ [[_ Ht]|[_ [ver Hv]]]];
      [contradiction|].
    apply TrimSuffix_latest_other; [|exact E].
    eapply Hcolon; eauto.
Qed.

Lemma recreate_to_create (fullRepo : string) (cnt : Container.t) (st : St W)
      (w1 w2 : W) (js : ContainerJSON.t) (base : ContainerJSONBase.t)
      (config : Config.t) :
  ContainerInspect (Container.ID cnt) (world st) = (w1, (js, None)) ->
  ContainerJSON.Base js = Some base ->
  ContainerRemove (Container.ID cnt) true w1 = (w2, None) ->
  ContainerJSON.Config js = Some config ->
  recreate fullRepo cnt st
  = let (w3, created) :=
      ContainerCreate
        (Config.set_Image config
           (strings.TrimSuffix fullRepo (String colon latest)))
        (ContainerJSONBase.HostConfig_ base) (networkingConfig_of js)
        (ContainerJSONBase.Name base) w2 in
    let st3 := created_state fullRepo cnt st js base config w3 in
    match created with
    | inr e => (st3, Failed ("create new container error: " ++ e)%string)
    | inl createdID =>
        let (w4, e) := ContainerStart createdID w3 in
        let st4 := {| world := w4;
                      calls := calls st3 ++ [CContainerStart createdID] |} in
        match e with
        | Some e => (st4, Failed ("start new container error: " ++ e)%string)
        | None => reclaim (ContainerJSONBase.Image base) createdID st4
        end
    end.
Proof.
  intros Hi Hb Hr Hc. unfold recreate, bind, call, created_state. simpl.
  rewrite Hi. simpl. rewrite Hb. simpl. rewrite Hr. simpl. rewrite Hc.
  cbn [world calls].
  destruct (ContainerCreate _ _ _ _ w2) as [w3 [createdID|e]]; simpl.
  - destruct (ContainerStart createdID w3) as [w4 [e|]]; simpl;
      rewrite <- !app_assoc; cbn [app]; reflexivity.
  - rewrite <- !app_assoc. reflexivity.
Qed.

(** The inspect after the start: without a base in the value it returns the
    read of [inspect.Image] panics; with one, the iteration ends without
    error, and the previous image is removed when its id differs. *)
Lemma reclaim_calls (prevImageId createdID : string) (st : St W) :
  match ContainerJSON.Base
          (fst (snd (ContainerInspect createdID (world st)))) with
  | None =>
      snd (reclaim prevImageId createdID st) = Panicked /\
      calls (fst (reclaim prevImageId createdID st))
      = calls st ++ [CContainerInspect createdID]
  | Some base =>
      snd (reclaim prevImageId createdID st) = Done tt /\
      calls (fst (reclaim prevImageId createdID st))
      = calls st ++ [CContainerInspect createdID]
        ++ (if (prevImageId =? ContainerJSONBase.Image base)%string
            then [] else [CImageRemove prevImageId])
  end.
Proof.
  unfold reclaim, bind, call, ret, panic. simpl.
  destruct (ContainerInspect createdID (world st)) as [w5 [js' e]]. simpl.
  destruct (ContainerJSON.Base js') as [base|]; [|split; reflexivity].
  destruct (prevImageId =? ContainerJSONBase.Image base)%string; simpl.
  - split; reflexivity.
  - destruct (ImageRemove prevImageId w5) as [w6 r]. simpl.
    split; [reflexivity | now rewrite <- app_assoc].
Qed.

Lemma reclaim_calls_from (prevImageId createdID : string) (st : St W) :
  exists tl, calls (fst (reclaim prevImageId createdID st))
             = calls st ++ CContainerInspect createdID :: tl.
Proof.
  pose proof (reclaim_calls prevImageId createdID st) as H.
  destruct (ContainerJSON.Base _) as [base|]; destruct H as [_ H]; rewrite H.
  - eexists. reflexivity.
  - exists []. reflexivity.
Qed.

(** C6: once a selected container is inspected and removed, the replacement
    is created from the inspected configuration with only [Image] changed, to
    [repo] when the target tag is [latest] and to [repo:tag] otherwise, with
    the inspected host configuration, network endpoints and name.  The
    inspected value has its base, through which the image id, the host
    configuration and the name are read. *)
Theorem C6_replacement_config (rev : Revision) (repo tag : string)
        (containers : list Container.t) (sel : SelState) (cnt : Container.t)
        (st : St W) (w1 w2 : W) (js : ContainerJSON.t)
        (base : ContainerJSONBase.t) (config : Config.t) :
  parsed_without_colon ->
  selectLoop rev repo tag sel_init containers = Next sel ->
  In cnt (toUpdate sel) ->
  ContainerInspect (Container.ID cnt) (world st) = (w1, (js, None)) ->
  ContainerJSON.Base js = Some base ->
  ContainerRemove (Container.ID cnt) true w1 = (w2, None) ->
  ContainerJSON.Config js = Some config ->
  exists rest,
    calls (fst (recreate (repo ++ ":" ++ tag) cnt st))
    = calls st ++
      [CContainerInspect (Container.ID cnt);
       CContainerRemove (Container.ID cnt) true;
       CContainerCreate
         (Config.mk (if (tag =? latest)%string then repo
                     else (repo ++ ":" ++ tag)%string)
                    (Config.Rest config))
         (ContainerJSONBase.HostConfig_ base) (networkingConfig_of js)
         (ContainerJSONBase.Name base)] ++ rest.
Proof.
  intros Hcolon Hsel Hin Hi Hb Hr Hc.
  rewrite (selectLoop_Next _ _ _ _ _ _ Hsel) in Hin. simpl in Hin.
  apply filter_In in Hin. destruct Hin as [_ Hu].
  rewrite (recreate_to_create _ _ _ _ _ _ _ _ Hi Hb Hr Hc).
  unfold created_state, Config.set_Image.
  rewrite (new_image _ _ _ _ Hcolon Hu).
  destruct (ContainerCreate _ _ _ _ w2) as [w3 [createdID|e]]; simpl.
  - destruct (ContainerStart createdID w3) as [w4 [e|]]; simpl.
    + exists [CContainerStart createdID]. now rewrite <- app_assoc.
    + match goal with
      | |- context [reclaim ?p ?c ?s] =>
          destruct (reclaim_calls_from p c s) as [tl Hcalls]; rewrite Hcalls
      end. simpl.
      eexists. rewrite <- !app_assoc. simpl. reflexivity.
  - exists []. reflexivity.
Qed.

(** C10: what the code does when the inspect that follows the start fails and
    returns the zero value, which has no base.  The error is not read, and
    [inspect.Image] is then read through the nil base: the iteration panics
    after the start, and the previous image is not removed. *)
Theorem C10_failed_reinspect_panics (fullRepo : string) (cnt : Container.t)
        (st : St W) (w1 w2 w3 w4 w5 : W) (js js' : ContainerJSON.t)
        (base : ContainerJSONBase.t) (config : Config.t)
        (createdID e : string) :
  ContainerInspect (Container.ID cnt) (world st) = (w1, (js, None)) ->
  ContainerJSON.Base js = Some base ->
  ContainerRemove (Container.ID cnt) true w1 = (w2, None) ->
  ContainerJSON.Config js = Some config ->
  ContainerCreate
    (Config.set_Image config (strings.TrimSuffix fullRepo (String colon latest)))
    (ContainerJSONBase.HostConfig_ base) (networkingConfig_of js)
    (ContainerJSONBase.Name base) w2 = (w3, inl createdID) ->
  ContainerStart createdID w3 = (w4, None) ->
  ContainerInspect createdID w4 = (w5, (js', Some e)) ->
  ContainerJSON.Base js' = None ->
  recreate fullRepo cnt st
  = ({| world := w5;
        calls := calls (created_state fullRepo cnt st js base config w3)
                 ++ [CContainerStart createdID; CContainerInspect createdID] |},
     Panicked).
Proof.
  intros Hi Hb Hr Hc Hcreate Hstart Hre Hzero.
  rewrite (recreate_to_create _ _ _ _ _ _ _ _ Hi Hb Hr Hc), Hcreate, Hstart.
  cbv zeta. unfold reclaim, bind, call, panic. cbn [world calls].
  rewrite Hre. cbn [fst]. rewrite Hzero.
  now rewrite <- app_assoc.
Qed.

(** When the value that comes with the error has a base, the error changes
    nothing: the iteration ends without error, and the previous image is
    removed exactly when its id differs from the [Image] of that base. *)
Lemma failed_reinspect_with_base (fullRepo : string) (cnt : Container.t)
      (st : St W) (w1 w2 w3 w4 w5 : W) (js js' : ContainerJSON.t)
      (base base' : ContainerJSONBase.t) (config : Config.t)
      (createdID e : string) :
  ContainerInspect (Container.ID cnt) (world st) = (w1, (js, None)) ->
  ContainerJSON.Base js = Some base ->
  ContainerRemove (Container.ID cnt) true w1 = (w2, None) ->
  ContainerJSON.Config js = Some config ->
  ContainerCreate
    (Config.set_Image config (strings.TrimSuffix fullRepo (String colon latest)))
    (ContainerJSONBase.HostConfig_ base) (networkingConfig_of js)
    (ContainerJSONBase.Name base) w2 = (w3, inl createdID) ->
  ContainerStart createdID w3 = (w4, None) ->
  ContainerInspect createdID w4 = (w5, (js', Some e)) ->
  ContainerJSON.Base js' = Some base' ->
  snd (recreate fullRepo cnt st) = Done tt /\
  calls (fst (recreate fullRepo cnt st))
  = calls (created_state fullRepo cnt st js base config w3)
    ++ [CContainerStart createdID; CContainerInspect createdID]
    ++ (if (ContainerJSONBase.Image base =? ContainerJSONBase.Image base')%string
        then [] else [CImageRemove (ContainerJSONBase.Image base)]).
Proof.
  intros Hi Hb Hr Hc Hcreate Hstart Hre Hbase.
  rewrite (recreate_to_create _ _ _ _ _ _ _ _ Hi Hb Hr Hc), Hcreate, Hstart.
  cbv zeta.
  match goal with
  | |- context [reclaim ?p ?c ?s] => pose proof (reclaim_calls p c s) as H
  end.
  cbn [world] in H. rewrite Hre in H. cbn [fst snd] in H. rewrite Hbase in H.
  destruct H as [Hdone Hcalls]. split; [exact Hdone|].
  rewrite Hcalls. cbn [calls]. now rewrite <- !app_assoc.
Qed.

End RecreateClaims.

(** ** The semver facts hold of [Masterminds] *)

Section MastermindsFacts.
Import Masterminds.

Lemma all_chars_contains (p : ascii -> bool) (c : ascii) (s : string) :
  all_chars p s = true -> p c = false -> strings.contains c s = false.
Proof.
  intros Hs Hc. induction s as [|d s IH]; simpl in *; [reflexivity|].
  apply andb_true_iff in Hs. destruct Hs as [Hd Hs].
  rewrite (IH Hs), orb_false_r.
  destruct (Ascii.eqb d c) eqn:E; [|reflexivity].
  apply Ascii.eqb_eq in E. congruence.
Qed.

Lemma cut_contains (c d : ascii) (s : string) :
  Ascii.eqb c d = false ->
  strings.contains d s
  = strings.contains d (fst (cut c s)) || opt_contains d (snd (cut c s)).
Proof.
  intros Hcd. induction s as [|x s IH]; simpl; [reflexivity|].
  destruct (Ascii.eqb x c) eqn:E; simpl.
  - apply Ascii.eqb_eq in E. subst x. now rewrite Hcd.
  - destruct (cut c s) as [a b]; simpl in *. now rewrite IH, orb_assoc.
Qed.

Lemma parse_segment_without_colon (s : string) (n : Z) :
  parse_segment s = Some n -> strings.contains colon s = false.
Proof.
  unfold parse_segment. destruct s as [|c s]; [discriminate|].
  destruct (all_chars is_digit (String c s)) eqn:E; [|discriminate].
  intros _. now apply (all_chars_contains is_digit).
Qed.

Lemma ids_ok_without_colon (s : string) :
  ids_ok s = true -> strings.contains colon s = false.
Proof.
  unfold ids_ok. intros H.
  rewrite (Split_contains s "."%char colon) by reflexivity.
  induction (strings.Split s "."%char) as [|p ps IH]; simpl in *; [reflexivity|].
  apply andb_true_iff in H. destruct H as [Hp Hps].
  apply andb_true_iff in Hp. destruct Hp as [_ Hp].
  rewrite (all_chars_contains is_ident_char colon p Hp) by reflexivity.
  now apply IH.
Qed.

Lemma opt_ids_ok_without_colon (s : option string) :
  opt_ids_ok s = true -> opt_contains colon s = false.
Proof. destruct s; simpl; [apply ids_ok_without_colon | reflexivity]. Qed.

Lemma core_without_colon (core : string) :
  Forall (fun p => parse_segment p <> None) (strings.Split core "."%char) ->
  strings.contains colon core = false.
Proof.
  intros H. rewrite (Split_contains core "."%char colon) by reflexivity.
  induction H as [|p ps Hp _ IH]; simpl; [reflexivity|].
  destruct (parse_segment p) as [n|] eqn:E; [|contradiction].
  now rewrite (parse_segment_without_colon p n E).
Qed.

Lemma Masterminds_parsed_without_colon : @parsed_without_colon Masterminds.pkg.
Proof.
  intros s v. simpl. unfold NewVersion_.
  set (body := match s with String "v" r => r | _ => s end).
  assert (Hbody : strings.contains colon s = strings.contains colon body).
  { subst body. destruct s as [|c r]; [reflexivity|].
    destruct c as [[] [] [] [] [] [] [] []]; reflexivity. }
  rewrite Hbody.
  rewrite (cut_contains "+"%char colon body) by reflexivity.
  destruct (cut "+"%char body) as [core_pre meta]. simpl.
  rewrite (cut_contains "-"%char colon core_pre) by reflexivity.
  destruct (cut "-"%char core_pre) as [core prerelease]. simpl.
  destruct (opt_ids_ok prerelease && opt_ids_ok meta) eqn:E; [|discriminate].
  apply andb_true_iff in E. destruct E as [Hp Hm].
  rewrite (opt_ids_ok_without_colon _ Hp), (opt_ids_ok_without_colon _ Hm).
  rewrite !orb_false_r. intros H.
  apply core_without_colon.
  destruct (strings.Split core "."%char) as [|p1 [|p2 [|p3 [|p4 ps]]]];
    simpl in H; try discriminate;
    repeat match type of H with
           | context [parse_segment ?p] =>
               let E := fresh "E" in
               destruct (parse_segment p) eqn:E; try discriminate
           end;
    repeat constructor; congruence.
Qed.

Lemma comparePreLoop_same (parts : list string) (n : nat) :
  forall i, comparePreLoop parts parts i n = 0%Z.
Proof.
  induction n as [|n IH]; intros i; simpl; [reflexivity|].
  unfold comparePrePart. rewrite String.eqb_refl. simpl. apply IH.
Qed.

Lemma Compare_same (v : Version_) : Compare v v = 0%Z.
Proof.
  unfold Compare, compareSegment. rewrite !Z.ltb_irrefl. simpl.
  destruct (pre v =? "")%string; simpl; [reflexivity|].
  unfold comparePrerelease. apply comparePreLoop_same.
Qed.

Lemma Masterminds_LessThan_irreflexive : @LessThan_irreflexive Masterminds.pkg.
Proof. intros v. simpl. unfold LessThan_. now rewrite Compare_same. Qed.

(** Between versions with the same prerelease, [LessThan] is the strict
    lexicographic order on major, minor and patch. *)
Lemma LessThan_same_prerelease (v o : Version_) :
  pre v = pre o ->
  LessThan_ v o = true
  <-> (major v < major o \/
       (major v = major o /\
        (minor v < minor o \/ (minor v = minor o /\ patch v < patch o))))%Z.
Proof.
  intros Hpre. unfold LessThan_, Compare, compareSegment. rewrite Hpre.
  destruct (Z.ltb_spec (major v) (major o)); simpl; [split; [lia | reflexivity]|].
  destruct (Z.ltb_spec (major o) (major v)); simpl; [split; [discriminate | lia]|].
  destruct (Z.ltb_spec (minor v) (minor o)); simpl; [split; [lia | reflexivity]|].
  destruct (Z.ltb_spec (minor o) (minor v)); simpl; [split; [discriminate | lia]|].
  destruct (Z.ltb_spec (patch v) (patch o)); simpl; [split; [lia | reflexivity]|].
  destruct (Z.ltb_spec (patch o) (patch v)); simpl; [split; [discriminate | lia]|].
  assert (E : (if (pre o =? "")%string && (pre o =? "")%string then 0
               else if (pre o =? "")%string then 1
               else if (pre o =? "")%string then -1
               else comparePrerelease (pre o) (pre o))%Z = 0%Z).
  { destruct (pre o =? "")%string; simpl; [reflexivity|].
    unfold comparePrerelease. apply comparePreLoop_same. }
  rewrite E. simpl. split; [discriminate | lia].
Qed.

End MastermindsFacts.

(** *** The claims on concrete runs *)

Lemma C7_empty_selection_witness :
  Samples.update First "app" "1.3.0"
                 (Samples.world_with "app:1.4.0" FakeDocker.no_faults)
  = ({| world := Samples.world_with "app:1.4.0" FakeDocker.no_faults;
        calls := [CContainerList] |}, Done tt).
Proof.
  unfold Samples.update.
  eapply (C7_empty_selection (cli := FakeDocker.client)
            (sv := Masterminds.pkg) (rf := SimpleReference.pkg)
            First "app" "1.3.0");
    try discriminate; reflexivity.
Defined.

Lemma C8_parse_failure_skips_witness :
  selectStep (sv := Masterminds.pkg) First "app" "1.3.0" sel_init
             Samples.app_unversioned
  = Next {| toUpdate := []; containerImages := ["app:stable"] |} /\
  same_selection
    (selectLoop (sv := Masterminds.pkg) First "app" "1.3.0" sel_init
                ([Samples.app_1_2_0] ++ Samples.app_unversioned :: []))
    (selectLoop (sv := Masterminds.pkg) First "app" "1.3.0" sel_init
                ([Samples.app_1_2_0] ++ [])) /\
  pullAndRecreate (cli := FakeDocker.client) (rf := SimpleReference.pkg)
    "app:1.3.0"
    (selectLoop (sv := Masterminds.pkg) First "app" "1.3.0" sel_init
                ([Samples.app_1_2_0] ++ Samples.app_unversioned :: []))
    {| world := Samples.world_with "app:1.2.0" FakeDocker.no_faults;
       calls := [CContainerList] |}
  = pullAndRecreate (cli := FakeDocker.client) (rf := SimpleReference.pkg)
      "app:1.3.0"
      (selectLoop (sv := Masterminds.pkg) First "app" "1.3.0" sel_init
                  ([Samples.app_1_2_0] ++ []))
      {| world := Samples.world_with "app:1.2.0" FakeDocker.no_faults;
         calls := [CContainerList] |}.
Proof.
  apply (C8_parse_failure_skips (cli := FakeDocker.client)
           (sv := Masterminds.pkg) (rf := SimpleReference.pkg)
           First "app" "1.3.0" sel_init Samples.app_unversioned).
  - discriminate.
  - left. reflexivity.
Defined.

Lemma C9_pull_failure_witness :
  Samples.update First "app" "1.3.0"
                 (Samples.world_with "app:1.2.0" Samples.pull_fails)
  = ({| world := Samples.world_with "app:1.2.0" Samples.pull_fails;
        calls := [CContainerList; CImagePull "docker.io/library/app:1.3.0"] |},
     Failed "pull image app:1.3.0 error: pull access denied") /\
  forallb (fun c => negb (touches_container c))
    (calls (fst (Samples.update First "app" "1.3.0"
                   (Samples.world_with "app:1.2.0" Samples.pull_fails)))) = true.
Proof.
  unfold Samples.update.
  eapply (C9_pull_failure (cli := FakeDocker.client)
            (sv := Masterminds.pkg) (rf := SimpleReference.pkg)
            First "app" "1.3.0");
    [discriminate | discriminate | reflexivity | reflexivity
    | discriminate | reflexivity | reflexivity].
Defined.

(** C9 as stated fails when the pull fails while its stream is read:
    [ImagePull] returns without error, draining the stream fails, both results
    of [io.Copy] are dropped, and the run goes on to remove and recreate the
    selected container and returns [nil]. *)
Lemma C9_counterexample_drain_failure :
  let w := Samples.world_with "app:1.2.0" Samples.drain_fails in
  let run1 := Samples.update First "app" "1.3.0" w in
  snd (ImagePull (DockerClient := FakeDocker.client)
                 "docker.io/library/app:1.3.0" w) = None /\
  snd (CopyDiscard (DockerClient := FakeDocker.client) w)
  = (0%Z, Some "unexpected EOF") /\
  snd run1 = Done tt /\
  calls (fst run1)
  = [CContainerList; CImagePull "docker.io/library/app:1.3.0"; CCopyDiscard;
     CContainerInspect "c1"; CContainerRemove "c1" true;
     CContainerCreate
       (Config.mk (T := FakeDocker.text_types) "app:1.3.0" ["PATH=/usr/bin"])
       (Some "restart=always")
       (Some (NetworkingConfig.mk (T := FakeDocker.text_types) ["bridge"]))
       "web";
     CContainerStart "000"; CContainerInspect "000";
     CImageRemove "sha256:old"; CClose] /\
  existsb touches_container (calls (fst run1)) = true /\
  map FakeDocker.id (FakeDocker.containers (world (fst run1))) = ["c2"; "000"].
Proof. vm_compute. repeat split. Qed.

Lemma C6_replacement_config_witness :
  exists rest : list (@Call FakeDocker.text_types),
    calls (fst (recreate (cli := FakeDocker.client) ("app" ++ ":" ++ "1.3.0")
                  Samples.app_1_2_0
                  {| world := Samples.world_with "app:1.2.0" FakeDocker.no_faults;
                     calls := [] |}))
    = [] ++
      [CContainerInspect "c1"; CContainerRemove "c1" true;
       CContainerCreate
         (Config.mk (T := FakeDocker.text_types) "app:1.3.0" ["PATH=/usr/bin"])
         (Some "restart=always")
         (Some (NetworkingConfig.mk (T := FakeDocker.text_types) ["bridge"]))
         "web"] ++ rest.
Proof.
  exact (C6_replacement_config (cli := FakeDocker.client)
           (sv := Masterminds.pkg) First "app" "1.3.0"
           [Samples.app_1_2_0] _ Samples.app_1_2_0
           {| world := Samples.world_with "app:1.2.0" FakeDocker.no_faults;
              calls := [] |} _ _ _ _ _
           Masterminds_parsed_without_colon eq_refl (or_introl eq_refl)
           eq_refl eq_refl eq_refl eq_refl).
Defined.

Lemma C10_failed_reinspect_panics_witness :
  snd (recreate (cli := FakeDocker.client) "app:1.3.0" Samples.app_1_2_0
         {| world := Samples.world_with "app:1.2.0" Samples.reinspect_fails;
            calls := [] |}) = Panicked /\
  calls (fst (recreate (cli := FakeDocker.client) "app:1.3.0"
                Samples.app_1_2_0
                {| world := Samples.world_with "app:1.2.0"
                              Samples.reinspect_fails;
                   calls := [] |}))
  = [CContainerInspect "c1"; CContainerRemove "c1" true;
     CContainerCreate
       (Config.mk (T := FakeDocker.text_types) "app:1.3.0" ["PATH=/usr/bin"])
       (Some "restart=always")
       (Some (NetworkingConfig.mk (T := FakeDocker.text_types) ["bridge"]))
       "web";
     CContainerStart "000"; CContainerInspect "000"].
Proof.
  rewrite (C10_failed_reinspect_panics (cli := FakeDocker.client)
             "app:1.3.0" Samples.app_1_2_0
             {| world := Samples.world_with "app:1.2.0" Samples.reinspect_fails;
                calls := [] |}
             _ _ _ _ _ _ _ _ _ _ _
             eq_refl eq_refl eq_refl eq_refl eq_refl eq_refl eq_refl eq_refl).
  split; reflexivity.
Defined.

(** ** Two runs in succession *)

Section RunInversion.
Context {T : ApiTypes} {W : Type} {cli : DockerClient W}.
Context {sv : SemverPkg} {rf : ReferencePkg}.

(** The calls behind an iteration that ends without error. *)
Lemma recreate_Done_inv (fullRepo : string) (cnt : Container.t) (st st' : St W) :
  recreate fullRepo cnt st = (st', Done tt) ->
  exists w1 js base w2 config w3 createdID w4 trace,
    ContainerInspect (Container.ID cnt) (world st) = (w1, (js, None)) /\
    ContainerJSON.Base js = Some base /\
    ContainerRemove (Container.ID cnt) true w1 = (w2, None) /\
    ContainerJSON.Config js = Some config /\
    ContainerCreate
      (Config.set_Image config
         (strings.TrimSuffix fullRepo (String colon latest)))
      (ContainerJSONBase.HostConfig_ base) (networkingConfig_of js)
      (ContainerJSONBase.Name base) w2 = (w3, inl createdID) /\
    ContainerStart createdID w3 = (w4, None) /\
    reclaim (ContainerJSONBase.Image base) createdID
            {| world := w4; calls := trace |} = (st', Done tt).
Proof.
  intros H.
  destruct (ContainerInspect (Container.ID cnt) (world st))
    as [w1 [js [e|]]] eqn:Hi.
  { unfold recreate, bind, call, _err in H. rewrite Hi in H. discriminate. }
  destruct (ContainerJSON.Base js) as [base|] eqn:Hb.
  2:{ unfold recreate, bind, call, _err, panic in H. rewrite Hi in H.
      simpl in H. rewrite Hb in H. discriminate. }
  destruct (ContainerRemove (Container.ID cnt) true w1) as [w2 [e|]] eqn:Hr.
  { unfold recreate, bind, call, _err in H. rewrite Hi in H. simpl in H.
    rewrite Hb in H. simpl in H. rewrite Hr in H. discriminate. }
  destruct (ContainerJSON.Config js) as [config|] eqn:Hc.
  2:{ unfold recreate, bind, call, _err, panic in H. rewrite Hi in H.
      simpl in H. rewrite Hb in H. simpl in H. rewrite Hr in H. simpl in H.
      rewrite Hc in H. discriminate. }
  rewrite (recreate_to_create _ _ _ _ _ _ _ _ Hi Hb Hr Hc) in H.
  destruct (ContainerCreate _ _ _ _ w2) as [w3 [createdID|e]] eqn:Hcreate;
    [|discriminate].
  destruct (ContainerStart createdID w3) as [w4 [e|]] eqn:Hstart;
    [discriminate|].
  cbv zeta in H. repeat eexists; eauto.
Qed.

Lemma reclaim_world (prevImageId createdID : string) (st : St W) :
  world (fst (reclaim prevImageId createdID st))
  = let r := ContainerInspect createdID (world st) in
    match ContainerJSON.Base (fst (snd r)) with
    | None => fst r
    | Some base =>
        if (prevImageId =? ContainerJSONBase.Image base)%string then fst r
        else fst (ImageRemove prevImageId (fst r))
    end.
Proof.
  unfold reclaim, bind, call, ret, panic. simpl.
  destruct (ContainerInspect createdID (world st)) as [w5 [js' e]]. simpl.
  destruct (ContainerJSON.Base js') as [base|]; [|reflexivity].
  destruct (prevImageId =? ContainerJSONBase.Image base)%string; simpl;
    [reflexivity|].
  now destruct (ImageRemove prevImageId w5).
Qed.

Lemma recreateAll_Done_inv (fullRepo : string) (cnt : Container.t)
      (rest : list Container.t) (st st' : St W) :
  recreateAll fullRepo (cnt :: rest) st = (st', Done tt) ->
  exists st1,
    recreate fullRepo cnt st = (st1, Done tt) /\
    recreateAll fullRepo rest st1 = (st', Done tt).
Proof.
  simpl. unfold bind at 1.
  destruct (recreate fullRepo cnt st) as [st1 [[]| |]]; try discriminate.
  intros H. now exists st1.
Qed.

(** A run that returns nil listed the containers, ran the loop to its end,
    and either selected nothing or recreated every selected container. *)
Lemma updateContainer_Done_inv (rev : Revision) (repo tag : string) (w : W)
      (st' : St W) :
  run (updateContainer rev repo tag) w = (st', Done tt) ->
  repo <> "" /\ tag <> "" /\
  exists w1 containers sel,
    ContainerList w = (w1, inl containers) /\
    selectLoop rev repo tag sel_init containers = Next sel /\
    ((toUpdate sel = [] /\ world st' = w1) \/
     (toUpdate sel <> [] /\
      exists pn w2 trace st2,
        ParseNormalizedNamed (repo ++ ":" ++ tag) = inl pn /\
        ImagePull pn w1 = (w2, None) /\
        recreateAll (repo ++ ":" ++ tag) (toUpdate sel)
                    {| world := fst (CopyDiscard w2); calls := trace |}
        = (st2, Done tt) /\
        world st' = fst (Close (world st2)))).
Proof.
  unfold run, updateContainer. intros H.
  destruct (repo =? "")%string eqn:Er; [discriminate|].
  destruct (tag =? "")%string eqn:Et; [discriminate|].
  apply String.eqb_neq in Er. apply String.eqb_neq in Et.
  split; [exact Er | split; [exact Et|]].
  cbn [orb] in H. cbv zeta in H.
  unfold bind at 1, call at 1 in H. cbn [world calls] in H.
  destruct (ContainerList w) as [w1 [containers|e]] eqn:Hlist; [|discriminate].
  destruct (selectLoop rev repo tag sel_init containers) as [sel|sel] eqn:Hsel;
    [|discriminate].
  exists w1, containers, sel. split; [reflexivity | split; [exact Hsel|]].
  unfold pullAndRecreate in H.
  destruct (toUpdate sel) as [|c cs] eqn:Hu.
  - left. cbn [length Nat.eqb] in H. inversion H. split; reflexivity.
  - right. split; [discriminate|]. cbn [length Nat.eqb] in H.
    destruct (ParseNormalizedNamed (repo ++ ":" ++ tag)) as [pn|e] eqn:Hp;
      [|discriminate].
    unfold bind at 1, call at 1 in H. cbn [world calls] in H.
    destruct (ImagePull pn w1) as [w2 [e|]] eqn:Hpull; [discriminate|].
    unfold defer_Close, bind at 1, call at 1 in H. cbn [world calls] in H.
    destruct (CopyDiscard w2) as [w3 copied] eqn:Hcopy.
    match type of H with
    | context [recreateAll ?f ?l ?s] =>
        destruct (recreateAll f l s) as [st2 r] eqn:Hall
    end.
    inversion H; subst.
    eexists pn, w2, _, st2. rewrite Hcopy. cbn [fst world].
    repeat split; eauto.
Qed.

End RunInversion.

Section OnTheFake.
Context {T : ApiTypes}.
Import FakeDocker.

Lemma zeros_length (n : nat) : String.length (zeros n) = n.
Proof. induction n as [|n IH]; simpl; [reflexivity | now rewrite IH]. Qed.

Lemma fresh_id_unused (w : World) (c : Ctr) :
  In c (containers w) -> has_id (fresh_id w) c = false.
Proof.
  intros Hin. unfold has_id. apply String.eqb_neq. intros E.
  assert (Hlen : String.length (id c)
                 <= list_max (map (fun c => String.length (id c)) (containers w))).
  { pose proof (proj1 (list_max_le
                         (map (fun c => String.length (id c)) (containers w)) _)
                      (Nat.le_refl _)) as Hall.
    rewrite Forall_forall in Hall. apply Hall.
    apply in_map_iff. now exists c. }
  rewrite E in Hlen. unfold fresh_id in Hlen. rewrite zeros_length in Hlen. lia.
Qed.

Lemma fContainerInspect_world (i : string) (w : World) :
  fst (fContainerInspect i w) = w.
Proof.
  unfold fContainerInspect. destruct (faults w (CContainerInspect i));
    [reflexivity|]. now destruct (find (has_id i) (containers w)).
Qed.

Lemma fImageRemove_world (img : string) (w : World) :
  fst (fImageRemove img w) = w.
Proof.
  unfold fImageRemove. destruct (faults w (CImageRemove img)); [reflexivity|].
  now destruct (existsb _ (containers w)).
Qed.

Lemma fContainerRemove_ok (i : string) (f : bool) (w w' : World) :
  fContainerRemove i f w = (w', None) ->
  w' = with_containers w (filter (fun c => negb (has_id i c)) (containers w)).
Proof.
  unfold fContainerRemove. destruct (faults w (CContainerRemove i f));
    [discriminate|].
  destruct (find (has_id i) (containers w)) as [c|]; [|discriminate].
  destruct (running c && negb f); [discriminate|]. now inversion 1.
Qed.

Lemma fContainerCreate_ok (cfg : Config.t) (h : option HostConfig)
      (net : option NetworkingConfig.t) (nm i : string) (w w' : World) :
  fContainerCreate cfg h net nm w = (w', inl i) ->
  i = fresh_id w /\
  exists c, w' = with_containers w (containers w ++ [c]) /\
            id c = i /\ image c = Config.Image cfg /\ running c = false.
Proof.
  unfold fContainerCreate. destruct (faults w (CContainerCreate cfg h net nm));
    [discriminate|].
  destruct (existsb _ (containers w)); [discriminate|].
  inversion 1. split; [reflexivity|].
  eexists. split; [reflexivity|]. simpl. auto.
Qed.

Lemma fContainerStart_ok (i : string) (w w' : World) :
  fContainerStart i w = (w', None) ->
  w' = with_containers w (map (start i) (containers w)).
Proof.
  unfold fContainerStart. destruct (faults w (CContainerStart i));
    [discriminate|].
  destruct (find (has_id i) (containers w)); [|discriminate]. now inversion 1.
Qed.

Lemma start_image (i : string) (c : Ctr) : image (start i c) = image c.
Proof. unfold start. now destruct (has_id i c). Qed.

Lemma recreate_carried_over (fullRepo : string) (cnt : Container.t)
      (st st' : St World) :
  recreate (cli := client) fullRepo cnt st = (st', Done tt) ->
  carried_over (strings.TrimSuffix fullRepo (String colon latest))
               [Container.ID cnt] (world st) (world st').
Proof.
  intros H.
  destruct (recreate_Done_inv _ _ _ _ H)
    as (w1 & js & base & w2 & config & w3 & createdID & w4 & trace
        & Hi & Hb & Hr & Hc & Hcreate & Hstart & Hre).
  simpl in Hi, Hr, Hcreate, Hstart.
  assert (Hw1 : w1 = world st).
  { pose proof (fContainerInspect_world (Container.ID cnt) (world st)) as E.
    now rewrite Hi in E. }
  subst w1.
  apply fContainerRemove_ok in Hr.
  apply fContainerCreate_ok in Hcreate.
  destruct Hcreate as [Hid (cnew & Hw3 & Hnid & Hnimg & Hnrun)].
  apply fContainerStart_ok in Hstart.
  assert (Hw' : world st' = w4).
  { pose proof (reclaim_world (cli := client) (ContainerJSONBase.Image base)
                  createdID {| world := w4; calls := trace |}) as E.
    rewrite Hre in E. cbn [fst world] in E. rewrite E. clear E.
    cbv zeta. simpl ContainerInspect. simpl ImageRemove.
    rewrite fContainerInspect_world.
    destruct (ContainerJSON.Base (fst (snd (fContainerInspect createdID w4))));
      [|reflexivity].
    destruct (_ =? _)%string; [reflexivity | apply fImageRemove_world]. }
  rewrite Hw'. subst w4 w3 w2. split; [reflexivity|].
  cbn [containers with_containers].
  intros c Hin Hrun.
  apply in_map_iff in Hin. destruct Hin as (c0 & Hc0 & Hin0).
  apply in_app_iff in Hin0. destruct Hin0 as [Hold|[Hnew|[]]].
  - right.
    assert (Hfresh : has_id createdID c0 = false).
    { rewrite Hid. now apply fresh_id_unused. }
    unfold start in Hc0. rewrite Hfresh in Hc0. subst c0.
    apply filter_In in Hold. destruct Hold as [Hold Hne].
    split; [exact Hold|].
    intros [Heq|[]]. unfold has_id in Hne.
    rewrite Heq, String.eqb_refl in Hne. discriminate.
  - left. subst c0 c. rewrite start_image, Hnimg. reflexivity.
Qed.

Lemma recreateAll_carried_over (fullRepo : string) (todo : list Container.t) :
  forall st st' : St World,
  recreateAll (cli := client) fullRepo todo st = (st', Done tt) ->
  carried_over (strings.TrimSuffix fullRepo (String colon latest))
               (map Container.ID todo) (world st) (world st').
Proof.
  induction todo as [|cnt rest IH]; intros st st' H.
  - inversion H; subst. split; [reflexivity|]. intros c Hin _. right. auto.
  - apply recreateAll_Done_inv in H. destruct H as (st1 & H1 & Hrest).
    apply recreate_carried_over in H1. apply IH in Hrest.
    destruct H1 as [Hf1 H1], Hrest as [Hf2 H2].
    split; [congruence|].
    intros c Hin Hrun.
    destruct (H2 c Hin Hrun) as [Himg|[Hin1 Hn1]]; [now left|].
    destruct (H1 c Hin1 Hrun) as [Himg|[Hin0 Hn0]]; [now left|].
    right. split; [exact Hin0|].
    simpl. intros [Heq|Hin']; [apply Hn0; now left | now apply Hn1].
Qed.

End OnTheFake.

Section Idempotence.
Context {T : ApiTypes} {sv : SemverPkg} {rf : ReferencePkg}.
Import FakeDocker.

(** A container created from the new image of a version update is not
    selected by the same update. *)
Lemma upd_new_image (rev : Revision) (repo tag : string) (ver : Version) :
  rejects_latest -> parsed_without_colon -> LessThan_irreflexive ->
  strings.contains colon repo = false -> tag <> "" ->
  NewVersion tag = Some ver ->
  upd rev repo tag
      (strings.TrimSuffix (repo ++ ":" ++ tag) (String colon latest)) = false.
Proof.
  intros Hl Hcolon Hirr Hrepo Hne Hv.
  assert (Hnl : tag <> latest).
  { intros E. subst tag. unfold rejects_latest in Hl. congruence. }
  pose proof (Hcolon _ _ Hv) as Htag.
  rewrite (TrimSuffix_latest_other _ _ Htag Hnl).
  unfold upd. rewrite (splitImage_repo_tag _ _ Hrepo Htag Hne).
  apply String.eqb_neq in Hnl. rewrite Hnl, Hv, (Hirr ver).
  destruct rev; now rewrite !andb_false_r.
Qed.

Lemma fContainerList_ok (w w1 : World) (cs : list Container.t) :
  fContainerList w = (w1, inl cs) ->
  faults w CContainerList = false /\ w1 = w /\ cs = running_containers w.
Proof.
  unfold fContainerList. destruct (faults w CContainerList); [discriminate|].
  inversion 1. auto.
Qed.

Lemma fImagePull_world (ref : string) (w : World) :
  fst (fImagePull ref w) = w.
Proof. unfold fImagePull. now destruct (faults w (CImagePull ref)). Qed.

(** After a run that returned nil, of the first revision or for a target tag
    other than [latest], the listing still succeeds and no running container
    is one the same request selects. *)
Lemma nothing_left_to_select (rev : Revision) (repo tag : string) (w : World)
      (st1 : St World) :
  rejects_latest -> parsed_without_colon -> LessThan_irreflexive ->
  rev = First \/ tag <> latest ->
  run (updateContainer (cli := client) rev repo tag) w = (st1, Done tt) ->
  repo <> "" /\ tag <> "" /\
  faults (world st1) CContainerList = false /\
  forall c, In c (running_containers (world st1)) ->
            upd rev repo tag (Container.Image c) = false.
Proof.
  intros Hl Hcolon Hirr Hrev Hrun.
  destruct (updateContainer_Done_inv _ _ _ _ _ Hrun)
    as (Hr & Ht & w1 & cs & sel & Hlist & Hsel & Hcase).
  split; [exact Hr | split; [exact Ht|]].
  simpl in Hlist. apply fContainerList_ok in Hlist.
  destruct Hlist as (Hf & -> & ->).
  pose proof (selectLoop_Next _ _ _ _ _ _ Hsel) as Hu. simpl in Hu.
  assert (Hold : forall c, In c (running_containers w) ->
                 ~ In c (toUpdate sel) ->
                 upd rev repo tag (Container.Image c) = false).
  { intros c Hin Hnot.
    destruct (upd rev repo tag (Container.Image c)) eqn:E; [|reflexivity].
    exfalso. apply Hnot. rewrite Hu. apply filter_In. now split. }
  destruct Hcase as [[Hempty Hw]|[Hne (pn & w2 & trace & st2 & Hp & Hpull & Hall & Hw)]].
  - rewrite Hw. split; [exact Hf|].
    intros c Hin. apply Hold; [exact Hin|]. now rewrite Hempty.
  - simpl in Hpull, Hall, Hw.
    assert (Hw2 : w2 = w).
    { pose proof (fImagePull_world pn w) as E. now rewrite Hpull in E. }
    subst w2.
    apply recreateAll_carried_over in Hall. cbn [world] in Hall.
    destruct Hall as [Hfaults Hkept].
    rewrite Hw. split; [now rewrite Hfaults|].
    (* the target tag is a version, the repository holds no colon *)
    assert (Hver : strings.contains colon repo = false /\
                   exists ver, NewVersion tag = Some ver).
    { destruct (toUpdate sel) as [|c0 rest] eqn:Esel; [contradiction|].
      assert (Hin0 : In c0 (filter (fun c => upd rev repo tag (Container.Image c))
                              (running_containers w))).
      { rewrite <- Hu. now left. }
      apply filter_In in Hin0. destruct Hin0 as [Hin0 Hu0].
      destruct (upd_true_tag _ _ _ _ Hu0) as [Hrepo [[Hc Htl]|[_ Hv]]].
      - exfalso. destruct Hrev as [->|Hnl]; [|contradiction].
        now apply (selectLoop_Next_first _ _ _ _ _ Hsel c0 Hin0 Hu0).
      - split; [|exact Hv].
        rewrite <- Hrepo. apply splitImage_repo_without_colon. }
    destruct Hver as [Hrepo [ver Hv]].
    intros c Hin. unfold running_containers in Hin.
    apply in_map_iff in Hin. destruct Hin as (c0 & <- & Hin0).
    apply filter_In in Hin0. destruct Hin0 as [Hin0 Hrun0].
    destruct (Hkept c0 Hin0 Hrun0) as [Himg|[Hinw Hnid]].
    + cbn [listed Container.Image]. rewrite Himg.
      eapply upd_new_image; eauto.
    + apply Hold.
      * unfold running_containers. apply in_map. apply filter_In. now split.
      * intros Hsel0. apply Hnid.
        change (id c0) with (Container.ID (listed c0)). now apply in_map.
Qed.

Lemma second_run (rev : Revision) (repo tag : string) (w : World)
      (st1 : St World) :
  rejects_latest -> parsed_without_colon -> LessThan_irreflexive ->
  rev = First \/ tag <> latest ->
  run (updateContainer (cli := client) rev repo tag) w = (st1, Done tt) ->
  selectLoop rev repo tag sel_init (running_containers (world st1))
  = Next {| toUpdate := [];
            containerImages :=
              map Container.Image (running_containers (world st1)) |} /\
  run (updateContainer (cli := client) rev repo tag) (world st1)
  = ({| world := world st1; calls := [CContainerList] |}, Done tt).
Proof.
  intros Hl Hcolon Hirr Hrev Hrun.
  destruct (nothing_left_to_select _ _ _ _ _ Hl Hcolon Hirr Hrev Hrun)
    as (Hr & Ht & Hf & Hnone).
  pose proof (selectLoop_all_unselected rev repo tag _ Hnone sel_init) as Hsel.
  cbn [sel_init toUpdate containerImages app] in Hsel.
  split; [exact Hsel|].
  eapply updateContainer_nothing_selected; eauto.
  simpl. unfold fContainerList. now rewrite Hf.
Qed.

(** C5: after a run of the first revision that returned nil on the in-memory
    runtime, the same request selects no container: the loop of a second run
    ends with an empty [toUpdate], and the second run returns nil with the
    listing as its only call, so no pull and no recreation.  The semver
    package is taken to reject [latest], to accept no string with a [':'], and
    to order no version before itself. *)
Theorem C5_second_run_selects_nothing (repo tag : string) (w : World)
        (st1 : St World) :
  rejects_latest -> parsed_without_colon -> LessThan_irreflexive ->
  run (updateContainer (cli := client) First repo tag) w = (st1, Done tt) ->
  selectLoop First repo tag sel_init (running_containers (world st1))
  = Next {| toUpdate := [];
            containerImages :=
              map Container.Image (running_containers (world st1)) |} /\
  run (updateContainer (cli := client) First repo tag) (world st1)
  = ({| world := world st1; calls := [CContainerList] |}, Done tt).
Proof.
  intros Hl Hcolon Hirr Hrun.
  exact (second_run First repo tag w st1 Hl Hcolon Hirr (or_introl eq_refl) Hrun).
Qed.

(** The second revision has the same property for every target tag other
    than [latest]. *)
Lemma second_revision_version_update_twice (repo tag : string) (w : World)
      (st1 : St World) :
  rejects_latest -> parsed_without_colon -> LessThan_irreflexive ->
  tag <> latest ->
  run (updateContainer (cli := client) Second repo tag) w = (st1, Done tt) ->
  run (updateContainer (cli := client) Second repo tag) (world st1)
  = ({| world := world st1; calls := [CContainerList] |}, Done tt).
Proof.
  intros Hl Hcolon Hirr Hnl Hrun.
  exact (proj2 (second_run Second repo tag w st1 Hl Hcolon Hirr
                  (or_intror Hnl) Hrun)).
Qed.

End Idempotence.

Lemma C5_second_run_selects_nothing_witness :
  let after := world (fst (Samples.update First "app" "1.3.0"
                             (Samples.world_with "app:1.2.0" FakeDocker.no_faults))) in
  FakeDocker.running_containers after
  = [Container.mk "c2" "postgres:9.6"; Container.mk "000" "app:1.3.0"] /\
  Samples.update First "app" "1.3.0" after
  = ({| world := after; calls := [CContainerList] |}, Done tt).
Proof.
  split; [reflexivity|].
  apply (C5_second_run_selects_nothing (sv := Masterminds.pkg)
           (rf := SimpleReference.pkg) "app" "1.3.0"
           (Samples.world_with "app:1.2.0" FakeDocker.no_faults)
           (fst (Samples.update First "app" "1.3.0"
                   (Samples.world_with "app:1.2.0" FakeDocker.no_faults)))
           Masterminds_rejects_latest Masterminds_parsed_without_colon
           Masterminds_LessThan_irreflexive eq_refl).
Defined.

(** The second revision does not panic on the [latest] path, and there a
    second run selects the replacement again: it is listed under the bare
    repository name, whose tag reads as [latest]. *)
Lemma second_revision_latest_reselects :
  let after := world (fst (Samples.update Second "app" "latest"
                             (Samples.world_with "app:latest" FakeDocker.no_faults))) in
  snd (Samples.update Second "app" "latest"
         (Samples.world_with "app:latest" FakeDocker.no_faults)) = Done tt /\
  toUpdate (locals (selectLoop (sv := Masterminds.pkg) Second "app" "latest"
                      sel_init (FakeDocker.running_containers after)))
  = [Container.mk "000" "app"].
Proof. split; reflexivity. Qed.

(** The first revision on the same input: the run panics after the listing. *)
Lemma first_revision_latest_run_panics :
  Samples.update First "app" "latest"
                 (Samples.world_with "app:latest" FakeDocker.no_faults)
  = ({| world := Samples.world_with "app:latest" FakeDocker.no_faults;
        calls := [CContainerList] |}, Panicked).
Proof. reflexivity. Qed.

(** * Further properties of the code *)

(** ** The selection loop *)

Section SelectionMore.
Context {sv : SemverPkg}.

Lemma selectLoop_images (rev : Revision) (repo tag : string)
      (containers : list Container.t) :
  forall st sel,
  selectLoop rev repo tag st containers = Next sel ->
  containerImages sel
  = containerImages st ++ map Container.Image containers.
Proof.
  induction containers as [|cnt rest IH]; intros st sel H; simpl in *.
  - inversion H; subst. now rewrite app_nil_r.
  - destruct (selectStep rev repo tag st cnt) as [s|s] eqn:E; [|discriminate].
    rewrite (IH _ _ H).
    assert (Hs : containerImages s = containerImages st ++ [Container.Image cnt]).
    { revert E. destruct rev;
        unfold selectStep, Rev1.selectStep, Rev2.selectStep, Rev1.finish;
        destruct (splitImage (Container.Image cnt)) as [cRepo cTag];
        repeat match goal with
               | |- context [if ?b then _ else _] => destruct b
               | |- context [match NewVersion ?x with _ => _ end] =>
                   destruct (NewVersion x)
               end; simpl; intros E; inversion E; reflexivity. }
    rewrite Hs, <- app_assoc. reflexivity.
Qed.

(** X1: when the selection loop runs to its end, [toUpdate] holds exactly the
    listed containers for which the decision [upd] is true, in listing order
    and as often as listed, and [containerImages] holds the image of every
    listed container, selected or not. *)
Theorem X1_selection_is_ordered_filter (rev : Revision) (repo tag : string)
        (containers : list Container.t) (sel : SelState) :
  selectLoop rev repo tag sel_init containers = Next sel ->
  toUpdate sel
  = filter (fun c => upd rev repo tag (Container.Image c)) containers /\
  containerImages sel = map Container.Image containers.
Proof.
  intros H. split.
  - exact (selectLoop_Next rev repo tag containers sel_init sel H).
  - exact (selectLoop_images rev repo tag containers sel_init sel H).
Qed.

Lemma selectLoop_toUpdate_from (rev : Revision) (repo tag : string)
      (containers : list Container.t) :
  forall st c,
  In c (toUpdate (locals (selectLoop rev repo tag st containers))) ->
  In c (toUpdate st) \/
  (In c containers /\ upd rev repo tag (Container.Image c) = true).
Proof.
  induction containers as [|cnt rest IH]; intros st c H; simpl in *.
  - now left.
  - pose proof (selectStep_toUpdate rev repo tag st cnt) as Hs.
    destruct (selectStep rev repo tag st cnt) as [s|s]; simpl in *.
    + destruct (IH _ _ H) as [Hin|[Hin Hu]]; [|right; split; auto].
      rewrite Hs in Hin. apply in_app_iff in Hin. destruct Hin as [Hin|Hin];
        [now left|].
      destruct (upd rev repo tag (Container.Image cnt)) eqn:E;
        [|contradiction].
      destruct Hin as [<-|[]]. right. split; auto.
    + rewrite Hs in H. apply in_app_iff in H. destruct H as [Hin|Hin];
        [now left|].
      destruct (upd rev repo tag (Container.Image cnt)) eqn:E;
        [|contradiction].
      destruct Hin as [<-|[]]. right. split; auto.
Qed.

(** X2: whatever the loop has put into [toUpdate], also at the moment of a
    panic, is a listed container whose image reference reads as the requested
    repository: a container of another repository is never selected. *)
Theorem X2_only_requested_repository (rev : Revision) (repo tag : string)
        (containers : list Container.t) (cnt : Container.t) :
  In cnt (toUpdate (locals (selectLoop rev repo tag sel_init containers))) ->
  In cnt containers /\ fst (splitImage (Container.Image cnt)) = repo.
Proof.
  intros H. apply selectLoop_toUpdate_from in H.
  destruct H as [[]|[Hin Hu]]. split; [exact Hin|].
  unfold upd in Hu. destruct (splitImage (Container.Image cnt)) as [cRepo cTag].
  apply andb_true_iff in Hu. destruct Hu as [Hr _].
  now apply String.eqb_eq in Hr.
Qed.

Lemma selectLoop_second_no_panic (repo tag : string)
      (containers : list Container.t) :
  forall st, is_panic (selectLoop Second repo tag st containers) = false.
Proof.
  induction containers as [|cnt rest IH]; intros st; simpl; [reflexivity|].
  pose proof (selectStep_is_panic Second repo tag st cnt) as Hp.
  destruct (selectStep Second repo tag st cnt) as [s|s]; simpl in Hp;
    [apply IH | discriminate].
Qed.

Lemma selectStep_first_panics (repo tag : string) (st : SelState)
      (cnt : Container.t) :
  is_panic (selectStep First repo tag st cnt) = true
  <-> tag = latest /\ fst (splitImage (Container.Image cnt)) = repo /\
      snd (splitImage (Container.Image cnt)) = latest.
Proof.
  rewrite selectStep_is_panic, andb_true_iff, String.eqb_eq. split.
  - intros [Hu Hl]. destruct (upd_true_tag _ _ _ _ Hu) as [Hr [[_ Ht]|[Hn _]]];
      [auto | contradiction].
  - intros (Ht & Hr & Hl). split; [|exact Hl].
    rewrite (upd_on_latest _ _ _ _ Hr Hl). now apply String.eqb_eq.
Qed.

(** X4: the selection loop of the first revision panics if and only if the
    target tag is [latest] and some listed container of the requested
    repository has the current tag [latest] (written out or by default). *)
Theorem X4_first_revision_panics_iff (repo tag : string)
        (containers : list Container.t) (st : SelState) :
  is_panic (selectLoop First repo tag st containers) = true
  <-> tag = latest /\
      exists cnt, In cnt containers /\
                  fst (splitImage (Container.Image cnt)) = repo /\
                  snd (splitImage (Container.Image cnt)) = latest.
Proof.
  revert st. induction containers as [|cnt rest IH]; intros st; simpl.
  - split; [discriminate | intros [_ (c & [] & _)]].
  - pose proof (selectStep_first_panics repo tag st cnt) as Hp.
    destruct (selectStep First repo tag st cnt) as [s|s]; simpl in Hp.
    + rewrite IH. split.
      * intros [Ht (c & Hin & Hc)]. split; [exact Ht|]. exists c. auto.
      * intros [Ht (c & [<-|Hin] & Hr & Hl)].
        -- assert (F : false = true) by (apply Hp; auto). discriminate.
        -- split; [exact Ht|]. exists c. auto.
    + simpl. split; [|reflexivity]. intros _.
      destruct (proj1 Hp eq_refl) as (Ht & Hr & Hl).
      split; [exact Ht|]. exists cnt. auto.
Qed.

Lemma upd_first_second (repo tag image : string) :
  upd First repo tag image = true -> upd Second repo tag image = true.
Proof.
  unfold upd. destruct (splitImage image) as [cRepo cTag].
  destruct (cRepo =? repo)%string; simpl; [|auto].
  destruct (cTag =? latest)%string; [auto|].
  destruct (NewVersion cTag); [|auto]. destruct (NewVersion tag); [|auto].
  intros H. apply andb_true_iff in H. tauto.
Qed.

Lemma filter_filter_implied {A : Type} (f g : A -> bool) (l : list A) :
  (forall x, f x = true -> g x = true) ->
  filter f (filter g l) = filter f l.
Proof.
  intros Hfg. induction l as [|x l IH]; simpl; [reflexivity|].
  destruct (g x) eqn:Eg; simpl.
  - now rewrite IH.
  - destruct (f x) eqn:Ef; [|exact IH].
    rewrite (Hfg x Ef) in Eg. discriminate.
Qed.

(** X5: the first revision selects among what the second revision selects.
    When its loop runs to its end on a listing, so does the loop of the second
    revision, and the first selection is the second one filtered by the first
    revision's decision, order kept. *)
Theorem X5_first_selection_within_second (repo tag : string)
        (containers : list Container.t) (sel1 : SelState) :
  selectLoop First repo tag sel_init containers = Next sel1 ->
  exists sel2,
    selectLoop Second repo tag sel_init containers = Next sel2 /\
    toUpdate sel1
    = filter (fun c => upd First repo tag (Container.Image c)) (toUpdate sel2) /\
    incl (toUpdate sel1) (toUpdate sel2).
Proof.
  intros H1.
  pose proof (selectLoop_second_no_panic repo tag containers sel_init) as Hp.
  destruct (selectLoop Second repo tag sel_init containers) as [sel2|sel2] eqn:H2;
    [|discriminate].
  exists sel2. split; [reflexivity|].
  rewrite (selectLoop_Next _ _ _ _ _ _ H1), (selectLoop_Next _ _ _ _ _ _ H2).
  simpl.
  assert (E : filter (fun c => upd First repo tag (Container.Image c)) containers
              = filter (fun c => upd First repo tag (Container.Image c))
                  (filter (fun c => upd Second repo tag (Container.Image c))
                          containers)).
  { symmetry. apply filter_filter_implied.
    intros c. apply upd_first_second. }
  split; [exact E|].
  intros c Hin. apply filter_In in Hin. destruct Hin as [Hin Hu].
  apply filter_In. split; [exact Hin | now apply upd_first_second].
Qed.

End SelectionMore.

(** ** The image a replacement is named with *)

(** X8: the image name a replacement is created with reads back, through the
    selector's split, as the requested repository and tag, also for [latest],
    where the name is the bare repository and the tag comes from the default.
    The repository and the tag hold no [':'] and the tag is not empty. *)
Theorem X8_new_image_reads_back (repo tag : string) :
  strings.contains colon repo = false ->
  strings.contains colon tag = false ->
  tag <> "" ->
  splitImage (strings.TrimSuffix (repo ++ ":" ++ tag) (String colon latest))
  = (repo, tag).
Proof.
  intros Hr Ht Hne.
  destruct (String.eqb_spec tag latest) as [->|Hnl].
  - rewrite TrimSuffix_latest_same. now apply splitImage_without_colon.
  - rewrite (TrimSuffix_latest_other _ _ Ht Hnl).
    now apply splitImage_repo_tag.
Qed.

Lemma X8_new_image_reads_back_witness :
  splitImage (strings.TrimSuffix ("app" ++ ":" ++ "latest") (String colon latest))
  = ("app", "latest").
Proof.
  apply (X8_new_image_reads_back "app" "latest");
    [reflexivity | reflexivity | discriminate].
Defined.

(** ** Runs that end early *)

Section RunMore.
Context {T : ApiTypes} {W : Type} {cli : DockerClient W}.
Context {sv : SemverPkg} {rf : ReferencePkg}.

Lemma upd_false_unknown_tag (rev : Revision) (repo tag image : string) :
  tag <> latest -> NewVersion tag = None ->
  upd rev repo tag image = false.
Proof.
  intros Hnl Hp. unfold upd.
  destruct (splitImage image) as [cRepo cTag].
  destruct (cTag =? latest)%string eqn:E.
  - apply String.eqb_eq in E. subst cTag.
    apply String.eqb_neq in Hnl. rewrite Hnl. apply andb_false_r.
  - rewrite Hp. destruct (NewVersion cTag); apply andb_false_r.
Qed.

(** X6: a request whose tag is neither [latest] nor a version the semver
    package parses selects nothing, whatever is running: the run returns nil
    after the listing, its only call.  Both revisions. *)
Theorem X6_unknown_tag_is_a_no_op (rev : Revision) (repo tag : string)
        (w w1 : W) (containers : list Container.t) :
  repo <> "" -> tag <> "" ->
  tag <> latest -> NewVersion tag = None ->
  ContainerList w = (w1, inl containers) ->
  run (updateContainer rev repo tag) w
  = ({| world := w1; calls := [CContainerList] |}, Done tt).
Proof.
  intros Hr Ht Hnl Hp Hlist.
  eapply updateContainer_nothing_selected; eauto.
  - apply selectLoop_all_unselected.
    intros c _. now apply upd_false_unknown_tag.
  - reflexivity.
Qed.

Lemma upd_first_latest (repo image : string) :
  rejects_latest ->
  upd First repo latest image = true ->
  snd (splitImage image) = latest.
Proof.
  intros Hl Hu.
  destruct (upd_true_tag _ _ _ _ Hu) as [_ [[Hc _]|[_ [ver Hv]]]];
    [exact Hc|].
  unfold rejects_latest in Hl. congruence.
Qed.

(** X7: in the first revision a request with the tag [latest] never gets as
    far as the pull.  The listing is the only call of the run, and the run
    panics, or returns the listing's error, or returns nil having selected
    nothing. *)
Theorem X7_first_revision_latest_never_pulls (repo : string) (w : W)
        (st : St W) (r : Outcome unit) :
  rejects_latest ->
  repo <> "" ->
  run (updateContainer First repo latest) w = (st, r) ->
  calls st = [CContainerList] /\
  world st = fst (ContainerList w) /\
  (r = Panicked \/ r = Done tt \/
   exists e, r = Failed ("get containers list error: " ++ e)%string).
Proof.
  intros Hl Hr Hrun. apply String.eqb_neq in Hr.
  unfold run, updateContainer in Hrun. rewrite Hr in Hrun.
  cbn [orb String.eqb latest Ascii.eqb Bool.eqb] in Hrun. cbv zeta in Hrun.
  unfold bind at 1, call at 1 in Hrun. cbn [world calls] in Hrun.
  destruct (ContainerList w) as [w1 [containers|e]] eqn:Hlist.
  - destruct (selectLoop First repo latest sel_init containers) as [sel|sel] eqn:Hsel.
    + assert (Hempty : toUpdate sel = []).
      { rewrite (selectLoop_Next _ _ _ _ _ _ Hsel). simpl.
        destruct (filter _ containers) as [|c cs] eqn:Ef; [reflexivity|].
        exfalso.
        assert (Hin : In c (filter (fun c => upd First repo latest (Container.Image c))
                              containers)) by (rewrite Ef; now left).
        apply filter_In in Hin. destruct Hin as [Hin Hu].
        apply (selectLoop_Next_first _ _ _ _ _ Hsel c Hin Hu).
        now apply (upd_first_latest repo). }
      unfold pullAndRecreate in Hrun. rewrite Hempty in Hrun.
      inversion Hrun; subst. simpl. auto.
    + inversion Hrun; subst. simpl. auto.
  - inversion Hrun; subst. simpl. split; [reflexivity|].
    split; [reflexivity|]. right. right. now exists e.
Qed.

(** X9: when containers are selected but [repo:tag] is no valid image
    reference, the run returns the error [parse container name ...] after the
    listing and before any pull. *)
Theorem X9_bad_reference_aborts_before_pull (rev : Revision)
        (repo tag : string) (w w1 : W) (containers : list Container.t)
        (sel : SelState) (e : string) :
  repo <> "" -> tag <> "" ->
  ContainerList w = (w1, inl containers) ->
  selectLoop rev repo tag sel_init containers = Next sel ->
  toUpdate sel <> [] ->
  ParseNormalizedNamed (repo ++ ":" ++ tag) = inr e ->
  run (updateContainer rev repo tag) w
  = ({| world := w1; calls := [CContainerList] |},
     Failed ("parse container name " ++ (repo ++ ":" ++ tag) ++ " error: " ++ e)%string).
Proof.
  intros Hr Ht Hlist Hsel Hne Hparse.
  apply String.eqb_neq in Hr. apply String.eqb_neq in Ht.
  unfold run, updateContainer. rewrite Hr, Ht. simpl.
  unfold bind, call. simpl. rewrite Hlist, Hsel.
  unfold pullAndRecreate.
  destruct (toUpdate sel) as [|c cs]; [contradiction|]. simpl.
  simpl in Hparse. rewrite Hparse. reflexivity.
Qed.

(** ** One iteration of the recreation loop *)

(** X13: when the inspect of a selected container succeeds but carries no
    [Config], the container is removed and the iteration then panics on the
    assignment to [contConfig.Image]: no replacement is created. *)
Theorem X13_missing_config_panics_after_remove (fullRepo : string)
        (cnt : Container.t) (st : St W) (w1 w2 : W) (js : ContainerJSON.t)
        (base : ContainerJSONBase.t) :
  ContainerInspect (Container.ID cnt) (world st) = (w1, (js, None)) ->
  ContainerJSON.Base js = Some base ->
  ContainerRemove (Container.ID cnt) true w1 = (w2, None) ->
  ContainerJSON.Config js = None ->
  recreate fullRepo cnt st
  = ({| world := w2;
        calls := calls st ++ [CContainerInspect (Container.ID cnt);
                              CContainerRemove (Container.ID cnt) true] |},
     Panicked).
Proof.
  intros Hi Hb Hr Hc. unfold recreate, bind, call, panic. simpl.
  rewrite Hi. simpl. rewrite Hb. simpl. rewrite Hr. simpl. rewrite Hc.
  now rewrite <- app_assoc.
Qed.

(** X14: once the replacement is started the iteration never returns an
    error.  Whatever error the inspect of the replacement returns and
    whatever the removal of the previous image returns, it ends without
    error when the inspected value has its base, and panics on the read of
    [inspect.Image] when it has none. *)
Theorem X14_no_error_after_start (fullRepo : string) (cnt : Container.t)
        (st : St W) (w1 w2 w3 w4 : W) (js : ContainerJSON.t)
        (base : ContainerJSONBase.t) (config : Config.t) (createdID : string) :
  ContainerInspect (Container.ID cnt) (world st) = (w1, (js, None)) ->
  ContainerJSON.Base js = Some base ->
  ContainerRemove (Container.ID cnt) true w1 = (w2, None) ->
  ContainerJSON.Config js = Some config ->
  ContainerCreate
    (Config.set_Image config (strings.TrimSuffix fullRepo (String colon latest)))
    (ContainerJSONBase.HostConfig_ base) (networkingConfig_of js)
    (ContainerJSONBase.Name base) w2 = (w3, inl createdID) ->
  ContainerStart createdID w3 = (w4, None) ->
  snd (recreate fullRepo cnt st)
  = match ContainerJSON.Base (fst (snd (ContainerInspect createdID w4))) with
    | Some _ => Done tt
    | None => Panicked
    end.
Proof.
  intros Hi Hb Hr Hc Hcreate Hstart.
  rewrite (recreate_to_create _ _ _ _ _ _ _ _ Hi Hb Hr Hc), Hcreate, Hstart.
  cbv zeta.
  match goal with
  | |- context [reclaim ?p ?c ?s] => pose proof (reclaim_calls p c s) as H
  end.
  cbn [world] in H.
  destruct (ContainerJSON.Base (fst (snd (ContainerInspect createdID w4))));
    apply H.
Qed.

End RunMore.

(** ** The order and number of the calls of a run *)

Section ProtocolProofs.
Context {T : ApiTypes} {W : Type} {cli : DockerClient W}.
Context {sv : SemverPkg} {rf : ReferencePkg}.

Lemma recreate_iteration (fullRepo : string) (cnt : Container.t)
      (st st' : St W) (r : Outcome unit) :
  recreate fullRepo cnt st = (st', r) ->
  exists it, calls st' = calls st ++ it /\
             iteration (Container.ID cnt) (is_done r) it.
Proof.
  intros H.
  destruct (ContainerInspect (Container.ID cnt) (world st))
    as [w1 [js [e|]]] eqn:Hi.
  { unfold recreate, bind, call, _err in H. rewrite Hi in H.
    inversion H; subst. eexists. split; [reflexivity | constructor]. }
  destruct (ContainerJSON.Base js) as [base|] eqn:Hb.
  2:{ unfold recreate, bind, call, _err, panic in H. rewrite Hi in H.
      simpl in H. rewrite Hb in H.
      inversion H; subst. eexists. split; [reflexivity | constructor]. }
  destruct (ContainerRemove (Container.ID cnt) true w1) as [w2 [e|]] eqn:Hr.
  { unfold recreate, bind, call, _err in H. rewrite Hi in H. simpl in H.
    rewrite Hb in H. simpl in H.
    rewrite Hr in H. inversion H; subst. simpl.
    eexists. split; [now rewrite <- app_assoc | constructor]. }
  destruct (ContainerJSON.Config js) as [config|] eqn:Hc.
  2:{ unfold recreate, bind, call, _err, panic in H. rewrite Hi in H.
      simpl in H. rewrite Hb in H. simpl in H.
      rewrite Hr in H. simpl in H. rewrite Hc in H.
      inversion H; subst. simpl.
      eexists. split; [now rewrite <- app_assoc | constructor]. }
  rewrite (recreate_to_create _ _ _ _ _ _ _ _ Hi Hb Hr Hc) in H.
  destruct (ContainerCreate _ _ _ _ w2) as [w3 [createdID|e]] eqn:Hcreate.
  2:{ inversion H; subst. unfold created_state. simpl.
      eexists. split; [reflexivity | constructor]. }
  destruct (ContainerStart createdID w3) as [w4 [e|]] eqn:Hstart.
  { inversion H; subst. unfold created_state. simpl.
    eexists. split; [now rewrite <- app_assoc | constructor]. }
  cbv zeta in H.
  match type of H with
  | reclaim ?p ?c ?s = _ => pose proof (reclaim_calls p c s) as Hre
  end.
  rewrite H in Hre. cbn [fst snd] in Hre.
  destruct (ContainerJSON.Base _) as [base'|] in Hre;
    destruct Hre as [Hdone Hcalls]; subst r;
    rewrite Hcalls; unfold created_state; cbn [calls world].
  - destruct (_ =? _)%string.
    + eexists. split; [rewrite <- !app_assoc; reflexivity | simpl; constructor].
    + eexists. split; [rewrite <- !app_assoc; reflexivity | simpl; constructor].
  - eexists. split; [rewrite <- !app_assoc; reflexivity | simpl; constructor].
Qed.

Lemma recreateAll_loop_trace (fullRepo : string) (todo : list Container.t) :
  forall (st st' : St W) (r : Outcome unit),
  recreateAll fullRepo todo st = (st', r) ->
  exists its, calls st' = calls st ++ its /\ loop_trace todo (is_done r) its.
Proof.
  induction todo as [|cnt rest IH]; intros st st' r H.
  - inversion H; subst. exists []. split; [now rewrite app_nil_r | constructor].
  - simpl in H. unfold bind at 1 in H.
    destruct (recreate fullRepo cnt st) as [st1 r1] eqn:H1.
    destruct (recreate_iteration _ _ _ _ _ H1) as (it & Hit & Hshape).
    destruct r1 as [[]|msg|].
    + destruct (IH _ _ _ H) as (its & Hits & Hloop).
      exists (it ++ its). split.
      * now rewrite Hits, Hit, app_assoc.
      * now apply lt_step.
    + inversion H; subst. exists it. split; [exact Hit | now apply lt_abort].
    + inversion H; subst. exists it. split; [exact Hit | now apply lt_abort].
Qed.

(** The calls of a run: none, the listing alone, the listing and a failed
    pull, or the listing, the pull, the draining of the stream, the loop and
    the close.  A run returns nil only after the listing alone, with nothing
    selected, or after the whole loop. *)
Lemma run_shape (rev : Revision) (repo tag : string) (w : W) (st' : St W)
      (r : Outcome unit) :
  run (updateContainer rev repo tag) w = (st', r) ->
  (calls st' = [] /\ is_done r = false) \/
  (calls st' = [CContainerList] /\
   (is_done r = false \/
    exists w1 containers,
      ContainerList w = (w1, inl containers) /\
      filter (fun c => upd rev repo tag (Container.Image c)) containers = [])) \/
  exists pn, ParseNormalizedNamed (repo ++ ":" ++ tag) = inl pn /\
    ((calls st' = [CContainerList; CImagePull pn] /\ is_done r = false) \/
     exists w1 containers its,
       ContainerList w = (w1, inl containers) /\
       loop_trace
         (filter (fun c => upd rev repo tag (Container.Image c)) containers)
         (is_done r) its /\
       calls st' = [CContainerList; CImagePull pn; CCopyDiscard] ++ its ++ [CClose]).
Proof.
  unfold run, updateContainer. intros H.
  destruct ((repo =? "")%string || (tag =? "")%string).
  { inversion H; subst. left. split; reflexivity. }
  right. cbv zeta in H.
  unfold bind at 1, call at 1 in H. cbn [world calls] in H.
  destruct (ContainerList w) as [w1 [containers|e]] eqn:Hlist.
  2:{ inversion H; subst. left. split; [reflexivity | now left]. }
  destruct (selectLoop rev repo tag sel_init containers) as [sel|sel] eqn:Hsel.
  2:{ inversion H; subst. left. split; [reflexivity | now left]. }
  pose proof (selectLoop_Next _ _ _ _ _ _ Hsel) as Hu. simpl in Hu.
  unfold pullAndRecreate in H.
  destruct (toUpdate sel) as [|c cs] eqn:Hsel0.
  { cbn [length Nat.eqb] in H. inversion H; subst. left.
    split; [reflexivity|]. right. exists w1, containers. now split. }
  cbn [length Nat.eqb] in H.
  destruct (ParseNormalizedNamed (repo ++ ":" ++ tag)) as [pn|e] eqn:Hp.
  2:{ inversion H; subst. left. split; [reflexivity | now left]. }
  right. exists pn. split; [reflexivity|].
  unfold bind at 1, call at 1 in H. cbn [world calls] in H.
  destruct (ImagePull pn w1) as [w2 [e|]] eqn:Hpull.
  { inversion H; subst. left. split; reflexivity. }
  right.
  unfold defer_Close, bind at 1, call at 1 in H. cbn [world calls] in H.
  destruct (CopyDiscard w2) as [w3 copied].
  match type of H with
  | context [recreateAll ?f ?l ?s] =>
      destruct (recreateAll f l s) as [st2 r2] eqn:Hall
  end.
  destruct (recreateAll_loop_trace _ _ _ _ _ Hall) as (its & Hits & Hloop).
  inversion H; subst. cbn [calls] in *.
  exists w1, containers, its. split; [reflexivity|]. split.
  - rewrite <- Hu. exact Hloop.
  - rewrite Hits. reflexivity.
Qed.

(** *** What the shapes give *)

Lemma iteration_in_loop (i : string) (b : bool) (it : list Call) :
  iteration i b it -> forallb in_loop it = true.
Proof. destruct 1; reflexivity. Qed.

Lemma loop_trace_in_loop (todo : list Container.t) (b : bool) (its : list Call) :
  loop_trace todo b its -> forallb in_loop its = true.
Proof.
  induction 1 as [|cnt rest it Hit|cnt rest it its b Hit _ IH].
  - reflexivity.
  - eapply iteration_in_loop; eauto.
  - rewrite forallb_app, IH, (iteration_in_loop _ _ _ Hit). reflexivity.
Qed.

Lemma removed_ids_app (a b : list Call) :
  removed_ids (a ++ b) = removed_ids a ++ removed_ids b.
Proof. unfold removed_ids. apply flat_map_app. Qed.

Lemma removed_ids_in_loop_free (cs : list Call) :
  forallb (fun c => negb (is_remove c)) cs = true -> removed_ids cs = [].
Proof.
  induction cs as [|c cs IH]; simpl; [reflexivity|].
  intros H. apply andb_true_iff in H. destruct H as [Hc Hcs].
  rewrite (IH Hcs). destruct c; simpl in *; try reflexivity; discriminate.
Qed.

Lemma iteration_removed (i : string) (b : bool) (it : list Call) :
  iteration i b it ->
  (removed_ids it = [i] \/ (b = false /\ removed_ids it = [])) /\
  forall j f, In (CContainerRemove j f) it -> f = true.
Proof.
  destruct 1; simpl; (split; [auto|]);
    intros j f Hin;
    repeat (destruct Hin as [Hin|Hin]; [inversion Hin; reflexivity|]);
    contradiction.
Qed.

Lemma loop_trace_removed (todo : list Container.t) (b : bool) (its : list Call) :
  loop_trace todo b its ->
  (exists rest, map Container.ID todo = removed_ids its ++ rest /\
                (b = true -> rest = [])) /\
  forall j f, In (CContainerRemove j f) its -> f = true.
Proof.
  induction 1 as [|cnt rest it Hit|cnt rest it its b Hit _ IH].
  - split; [exists []; auto | intros j f []].
  - destruct (iteration_removed _ _ _ Hit) as [[Hr|[_ Hr]] Hf];
      (split; [|exact Hf]); rewrite Hr; simpl.
    + exists (map Container.ID rest). split; [reflexivity | discriminate].
    + exists (Container.ID cnt :: map Container.ID rest).
      split; [reflexivity | discriminate].
  - destruct IH as [(rest' & Hrest & Hall) Hf'].
    destruct (iteration_removed _ _ _ Hit) as [[Hr|[F _]] Hf]; [|discriminate].
    split.
    + exists rest'. rewrite removed_ids_app, Hr. simpl. split; [|exact Hall].
      now rewrite Hrest.
    + intros j f Hin. apply in_app_iff in Hin. destruct Hin; eauto.
Qed.

(** X10: in every run, however it ends, [ContainerRemove] is called with
    force, and the ids it is called with are, in order, a front part of the
    ids of the selected containers: each selected container at most once, in
    listing order, none that was not selected.  When the run returns nil they
    are all of them. *)
Theorem X10_removes_follow_the_selection (rev : Revision) (repo tag : string)
        (w w1 : W) (containers : list Container.t) (st' : St W)
        (r : Outcome unit) :
  ContainerList w = (w1, inl containers) ->
  run (updateContainer rev repo tag) w = (st', r) ->
  (exists rest,
     map Container.ID
         (filter (fun c => upd rev repo tag (Container.Image c)) containers)
     = removed_ids (calls st') ++ rest /\
     (is_done r = true -> rest = [])) /\
  forall j f, In (CContainerRemove j f) (calls st') -> f = true.
Proof.
  intros Hlist Hrun.
  destruct (run_shape _ _ _ _ _ _ Hrun)
    as [[Hc Hd]|[[Hc Hd]|(pn & Hp & [[Hc Hd]|(w1' & cs & its & Hl & Hloop & Hc)])]].
  - rewrite Hc, Hd. split; [|intros j f []].
    eexists. split; [reflexivity | discriminate].
  - rewrite Hc. split; [|intros j f [F|[]]; discriminate].
    destruct Hd as [Hd|(w2 & cs & Hl & Hnone)].
    + rewrite Hd. eexists. split; [reflexivity | discriminate].
    + rewrite Hlist in Hl. inversion Hl; subst cs w2.
      rewrite Hnone. exists []. split; [reflexivity | auto].
  - rewrite Hc, Hd. split; [|intros j f [F|[F|[]]]; discriminate].
    eexists. split; [reflexivity | discriminate].
  - rewrite Hlist in Hl. inversion Hl; subst cs w1'.
    destruct (loop_trace_removed _ _ _ Hloop) as [(rest & Hrest & Hall) Hf].
    rewrite Hc. split.
    + exists rest. rewrite !removed_ids_app. simpl. rewrite app_nil_r.
      split; [exact Hrest | exact Hall].
    + intros j f Hin. simpl in Hin.
      destruct Hin as [F|[F|[F|Hin]]]; try discriminate.
      apply in_app_iff in Hin. destruct Hin as [Hin|[F|[]]];
        [eauto | discriminate].
Qed.

End ProtocolProofs.

Section ProtocolCounts.
Context {T : ApiTypes} {W : Type} {cli : DockerClient W}.
Context {sv : SemverPkg} {rf : ReferencePkg}.

Lemma count_app (p : Call -> bool) (a b : list Call) :
  count p (a ++ b) = count p a + count p b.
Proof. unfold count. now rewrite filter_app, length_app. Qed.

Lemma iteration_counts (i : string) (b : bool) (it : list Call) :
  iteration i b it ->
  count is_start it <= count is_create it /\
  count is_create it <= count is_remove it /\
  count is_remove it <= 1 /\
  (b = true -> count is_start it = 1).
Proof.
  destruct 1; cbv [count filter is_start is_create is_remove length];
    repeat split; try lia; try discriminate.
Qed.

Lemma loop_trace_counts (todo : list Container.t) (b : bool) (its : list Call) :
  loop_trace todo b its ->
  count is_start its <= count is_create its /\
  count is_create its <= count is_remove its /\
  count is_remove its <= S (count is_start its) /\
  count is_remove its <= length todo /\
  (b = true -> count is_start its = length todo).
Proof.
  induction 1 as [|cnt rest it Hit|cnt rest it its b Hit _ IH].
  - cbv [count filter length]. repeat split; lia.
  - destruct (iteration_counts _ _ _ Hit) as (H1 & H2 & H3 & _).
    simpl. repeat split; try lia; try discriminate.
  - destruct (iteration_counts _ _ _ Hit) as (H1 & H2 & H3 & H4).
    specialize (H4 eq_refl).
    destruct IH as (I1 & I2 & I3 & I4 & I5).
    rewrite !count_app. simpl. repeat split; try lia.
    intros Hb. specialize (I5 Hb). lia.
Qed.

Lemma count_none (p : Call -> bool) (cs : list Call) :
  forallb (fun c => negb (p c)) cs = true -> count p cs = 0.
Proof.
  unfold count. induction cs as [|c cs IH]; simpl; [reflexivity|].
  intros H. apply andb_true_iff in H. destruct H as [Hc Hcs].
  destruct (p c); [discriminate | now apply IH].
Qed.

(** X11: in every run, however it ends, there are at most as many starts as
    creates and creates as removes, at most one remove more than starts, and
    at most as many removes as selected containers.  So a run that fails
    leaves at most one selected container removed without a started
    replacement; a run that returns nil has started one replacement for
    every selected container. *)
Theorem X11_at_most_one_container_in_between (rev : Revision)
        (repo tag : string) (w w1 : W) (containers : list Container.t)
        (st' : St W) (r : Outcome unit) :
  ContainerList w = (w1, inl containers) ->
  run (updateContainer rev repo tag) w = (st', r) ->
  let selection :=
    filter (fun c => upd rev repo tag (Container.Image c)) containers in
  count is_start (calls st') <= count is_create (calls st') /\
  count is_create (calls st') <= count is_remove (calls st') /\
  count is_remove (calls st') <= S (count is_start (calls st')) /\
  count is_remove (calls st') <= length selection /\
  (is_done r = true -> count is_start (calls st') = length selection).
Proof.
  intros Hlist Hrun selection.
  assert (Esel : selection
                 = filter (fun c => upd rev repo tag (Container.Image c))
                          containers) by reflexivity.
  clearbody selection.
  destruct (run_shape _ _ _ _ _ _ Hrun)
    as [[Hc Hd]|[[Hc Hd]|(pn & Hp & [[Hc Hd]|(w1' & cs & its & Hl & Hloop & Hc)])]].
  - rewrite Hc, Hd. cbv [count filter length]. repeat split; try lia;
      try discriminate.
  - rewrite Hc. cbv [count filter is_start is_create is_remove length].
    repeat split; try lia.
    intros Hdone. destruct Hd as [Hd|(w2 & cs & Hl & Hnone)]; [congruence|].
    rewrite Hlist in Hl. inversion Hl; subst cs w2.
    rewrite <- Esel in Hnone. now rewrite Hnone.
  - rewrite Hc, Hd. cbv [count filter is_start is_create is_remove length].
    repeat split; try lia; try discriminate.
  - rewrite Hlist in Hl. inversion Hl; subst cs w1'.
    rewrite <- Esel in Hloop.
    destruct (loop_trace_counts _ _ _ Hloop) as (I1 & I2 & I3 & I4 & I5).
    rewrite Hc.
    change ([CContainerList; CImagePull pn; CCopyDiscard] ++ its ++ [CClose])
      with ([CContainerList; CImagePull pn; CCopyDiscard] ++ (its ++ [CClose])).
    rewrite !count_app.
    change (count is_start [CContainerList; CImagePull pn; CCopyDiscard]) with 0.
    change (count is_create [CContainerList; CImagePull pn; CCopyDiscard]) with 0.
    change (count is_remove [CContainerList; CImagePull pn; CCopyDiscard]) with 0.
    change (count is_start [CClose]) with 0.
    change (count is_create [CClose]) with 0.
    change (count is_remove [CClose]) with 0.
    rewrite !Nat.add_0_r. cbn [Nat.add]. auto.
Qed.

(** X12: in every run, a call on a container, or the removal of an image,
    is made only after the listing, the pull of the normalised [repo:tag] and
    the draining of the pull stream, in that order at the start of the run. *)
Theorem X12_pulled_before_anything_is_touched (rev : Revision)
        (repo tag : string) (w : W) (st' : St W) (r : Outcome unit)
        (c : Call) :
  run (updateContainer rev repo tag) w = (st', r) ->
  In c (calls st') -> in_loop c = true ->
  exists pn rest,
    ParseNormalizedNamed (repo ++ ":" ++ tag) = inl pn /\
    calls st' = [CContainerList; CImagePull pn; CCopyDiscard] ++ rest.
Proof.
  intros Hrun Hin Hloop.
  destruct (run_shape _ _ _ _ _ _ Hrun)
    as [[Hc _]|[[Hc _]|(pn & Hp & [[Hc _]|(w1 & cs & its & _ & _ & Hc)])]];
    rewrite Hc in Hin.
  - destruct Hin.
  - destruct Hin as [<-|[]]. discriminate.
  - destruct Hin as [<-|[<-|[]]]; discriminate.
  - exists pn, (its ++ [CClose]). split; [exact Hp | exact Hc].
Qed.

(** X15: the pull stream is closed exactly when the pull succeeded, once, and
    as the last call of the run, whether the loop ran to its end, returned an
    error or panicked; no run closes a stream it did not open. *)
Theorem X15_stream_closed_once_and_last (rev : Revision) (repo tag : string)
        (w : W) (st' : St W) (r : Outcome unit) :
  run (updateContainer rev repo tag) w = (st', r) ->
  (In CCopyDiscard (calls st') ->
   count is_close (calls st') = 1 /\
   last (calls st') CContainerList = CClose) /\
  (~ In CCopyDiscard (calls st') -> count is_close (calls st') = 0).
Proof.
  intros Hrun.
  destruct (run_shape _ _ _ _ _ _ Hrun)
    as [[Hc _]|[[Hc _]|(pn & Hp & [[Hc _]|(w1 & cs & its & _ & Hloop & Hc)])]];
    rewrite Hc.
  - split; [intros [] | reflexivity].
  - split; [intros [F|[]]; discriminate | reflexivity].
  - split; [intros [F|[F|[]]]; discriminate | reflexivity].
  - split.
    + intros _. split.
      * change ([CContainerList; CImagePull pn; CCopyDiscard] ++ its ++ [CClose])
          with ([CContainerList; CImagePull pn; CCopyDiscard] ++ (its ++ [CClose])).
        rewrite !count_app.
        rewrite (count_none is_close its).
        -- reflexivity.
        -- pose proof (loop_trace_in_loop _ _ _ Hloop) as Hall.
           rewrite forallb_forall in *. intros x Hx.
           specialize (Hall x Hx). destruct x; try discriminate; reflexivity.
      * rewrite app_assoc. apply last_last.
    + intros Hn. exfalso. apply Hn. simpl. auto.
Qed.

End ProtocolCounts.

(** ** The HTTP handlers *)

Section HandlerProofs.
Context {T : ApiTypes} {W : Type} {cli : DockerClient W}.
Context {sv : SemverPkg} {rf : ReferencePkg}.
Context {C : Type} {echo : EchoContext C}.

Lemma updateContainer_rejects_empty (rev : Revision) (repo tag : string)
      (st : St W) :
  repo = "" \/ tag = "" ->
  updateContainer rev repo tag st = (st, Failed "repo and tag must be filled").
Proof.
  intros H. unfold updateContainer.
  assert (E : ((repo =? "")%string || (tag =? "")%string) = true).
  { destruct H as [->| ->]; [reflexivity|]. apply orb_true_r. }
  now rewrite E.
Qed.

(** X16: a manual call in which the parameter [repo] or [tag] reads as the
    empty string, as a missing one does, returns the error [repo and tag must
    be filled]; nothing is called on the runtime and nothing is written. *)
Theorem X16_manual_call_without_parameter (rev : Revision)
        (s : Serving W C) :
  QueryParam "repo" (ctx s) = "" \/ QueryParam "tag" (ctx s) = "" ->
  updManual rev s = (s, Failed "repo and tag must be filled").
Proof.
  intros H. unfold updManual, _upd.
  rewrite (updateContainer_rejects_empty rev _ _ (docker s) H).
  now destruct s.
Qed.

(** X17: a hook whose payload binds but names no repository or no tag returns
    the same error, with nothing called on the runtime and nothing written. *)
Theorem X17_hook_without_repository_or_tag (rev : Revision)
        (s : Serving W C) (c : C) (p : push.t) :
  Bind (ctx s) = (c, inl p) ->
  repository.RepoName (push.Repository p) = "" \/
  pushData.Tag (push.Data p) = "" ->
  updByHook rev s
  = ({| ctx := c; written := written s; docker := docker s |},
     Failed "repo and tag must be filled").
Proof.
  intros Hb H. unfold updByHook, _upd. rewrite Hb. cbn [docker ctx written].
  now rewrite (updateContainer_rejects_empty rev _ _ (docker s) H).
Qed.

(** X18: a manual call for a tag that is neither [latest] nor a version the
    semver package parses answers [200 OK], although the listing is all that
    was done. *)
Theorem X18_unknown_tag_answers_OK (rev : Revision) (c c' : C)
        (wr : list Written) (w w1 : W) (containers : list Container.t) :
  QueryParam "repo" c <> "" -> QueryParam "tag" c <> "" ->
  QueryParam "tag" c <> latest -> NewVersion (QueryParam "tag" c) = None ->
  ContainerList w = (w1, inl containers) ->
  WriteString 200 "OK" c = (c', None) ->
  updManual rev {| ctx := c; written := wr;
                   docker := {| world := w; calls := [] |} |}
  = ({| ctx := c'; written := wr ++ [WString 200 "OK"];
        docker := {| world := w1; calls := [CContainerList] |} |}, Done tt).
Proof.
  intros Hr Ht Hnl Hp Hlist Hw. unfold updManual, _upd. cbn [docker ctx written].
  assert (E : updateContainer rev (QueryParam "repo" c) (QueryParam "tag" c)
                {| world := w; calls := [] |}
              = ({| world := w1; calls := [CContainerList] |}, Done tt)).
  { eapply (updateContainer_nothing_selected rev); eauto.
    - apply selectLoop_all_unselected.
      intros x _. now apply upd_false_unknown_tag.
    - reflexivity. }
  rewrite E. unfold respond_OK. cbn [docker ctx written]. now rewrite Hw.
Qed.

End HandlerProofs.

(** ** The further properties on concrete runs *)

Lemma X1_selection_is_ordered_filter_witness :
  [Samples.app_1_2_0]
  = filter (fun c => upd (sv := Masterminds.pkg) First "app" "1.3.0"
                         (Container.Image c))
           [Samples.app_1_2_0; Container.mk "c2" "app:latest";
            Container.mk "c3" "other:1.0.0"] /\
  ["app:1.2.0"; "app:latest"; "other:1.0.0"]
  = map Container.Image
        [Samples.app_1_2_0; Container.mk "c2" "app:latest";
         Container.mk "c3" "other:1.0.0"].
Proof.
  exact (X1_selection_is_ordered_filter (sv := Masterminds.pkg)
           First "app" "1.3.0"
           [Samples.app_1_2_0; Container.mk "c2" "app:latest";
            Container.mk "c3" "other:1.0.0"]
           {| toUpdate := [Samples.app_1_2_0];
              containerImages := ["app:1.2.0"; "app:latest"; "other:1.0.0"] |}
           eq_refl).
Defined.

Lemma X2_only_requested_repository_witness :
  In Samples.app_1_2_0 [Container.mk "c3" "other:1.0.0"; Samples.app_1_2_0] /\
  fst (splitImage (Container.Image Samples.app_1_2_0)) = "app".
Proof.
  apply (X2_only_requested_repository (sv := Masterminds.pkg)
           First "app" "1.3.0").
  left. reflexivity.
Defined.

Lemma X5_first_selection_within_second_witness :
  exists sel2,
    selectLoop (sv := Masterminds.pkg) Second "app" "1.3.0" sel_init
               [Samples.app_1_2_0; Container.mk "c2" "app:1.2.0-beta"]
    = Next sel2 /\
    [Samples.app_1_2_0]
    = filter (fun c => upd (sv := Masterminds.pkg) First "app" "1.3.0"
                           (Container.Image c)) (toUpdate sel2) /\
    incl [Samples.app_1_2_0] (toUpdate sel2).
Proof.
  exact (X5_first_selection_within_second (sv := Masterminds.pkg)
           "app" "1.3.0"
           [Samples.app_1_2_0; Container.mk "c2" "app:1.2.0-beta"]
           {| toUpdate := [Samples.app_1_2_0];
              containerImages := ["app:1.2.0"; "app:1.2.0-beta"] |}
           eq_refl).
Defined.

Lemma X6_unknown_tag_is_a_no_op_witness :
  Samples.update Second "app" "stable"
                 (Samples.world_with "app:1.2.0" FakeDocker.no_faults)
  = ({| world := Samples.world_with "app:1.2.0" FakeDocker.no_faults;
        calls := [CContainerList] |}, Done tt).
Proof.
  unfold Samples.update.
  eapply (X6_unknown_tag_is_a_no_op (cli := FakeDocker.client)
            (sv := Masterminds.pkg) (rf := SimpleReference.pkg)
            Second "app" "stable");
    [discriminate | discriminate | discriminate | reflexivity | reflexivity].
Defined.

Lemma X7_first_revision_latest_never_pulls_witness :
  let run1 := Samples.update First "app" "latest"
                (Samples.world_with "app:latest" FakeDocker.no_faults) in
  calls (fst run1) = [CContainerList] /\
  world (fst run1)
  = fst (ContainerList (DockerClient := FakeDocker.client)
           (Samples.world_with "app:latest" FakeDocker.no_faults)) /\
  (snd run1 = Panicked \/ snd run1 = Done tt \/
   exists e, snd run1 = Failed ("get containers list error: " ++ e)%string).
Proof.
  cbv zeta. unfold Samples.update.
  apply (X7_first_revision_latest_never_pulls (cli := FakeDocker.client)
           (sv := Masterminds.pkg) (rf := SimpleReference.pkg) "app"
           (Samples.world_with "app:latest" FakeDocker.no_faults)).
  - reflexivity.
  - discriminate.
  - apply surjective_pairing.
Defined.

Lemma X9_bad_reference_aborts_before_pull_witness :
  let w := FakeDocker.a_world
             [FakeDocker.a_container "c1" "web" "App:1.2.0" "sha256:old"]
             FakeDocker.no_faults in
  run (updateContainer (cli := FakeDocker.client) (sv := Masterminds.pkg)
         (rf := LowercaseReference.pkg) First "App" "1.3.0") w
  = ({| world := w; calls := [CContainerList] |},
     Failed "parse container name App:1.3.0 error: invalid reference format: repository name must be lowercase").
Proof.
  eapply (X9_bad_reference_aborts_before_pull (cli := FakeDocker.client)
            (sv := Masterminds.pkg) (rf := LowercaseReference.pkg)
            First "App" "1.3.0");
    [discriminate | discriminate | reflexivity | reflexivity
    | discriminate | reflexivity].
Defined.

Lemma X10_removes_follow_the_selection_witness :
  let run1 := Samples.update First "app" "1.3.0"
                (MoreSamples.three_containers MoreSamples.second_create_fails) in
  removed_ids (calls (fst run1)) = ["c1"; "c2"] /\
  (exists rest,
     map Container.ID
         (filter (fun c => upd (sv := Masterminds.pkg) First "app" "1.3.0"
                               (Container.Image c))
                 (FakeDocker.running_containers
                    (MoreSamples.three_containers MoreSamples.second_create_fails)))
     = removed_ids (calls (fst run1)) ++ rest /\
     (is_done (snd run1) = true -> rest = [])) /\
  forall j f, In (CContainerRemove j f) (calls (fst run1)) -> f = true.
Proof.
  cbv zeta. unfold Samples.update. split; [vm_compute; reflexivity|].
  apply (X10_removes_follow_the_selection (cli := FakeDocker.client)
           (sv := Masterminds.pkg) (rf := SimpleReference.pkg)
           First "app" "1.3.0"
           (MoreSamples.three_containers MoreSamples.second_create_fails)
           (MoreSamples.three_containers MoreSamples.second_create_fails)
           (FakeDocker.running_containers
              (MoreSamples.three_containers MoreSamples.second_create_fails))).
  - reflexivity.
  - apply surjective_pairing.
Defined.

Lemma X11_at_most_one_container_in_between_witness :
  let run1 := Samples.update First "app" "1.3.0"
                (MoreSamples.three_containers MoreSamples.second_create_fails) in
  let selection :=
    filter (fun c => upd (sv := Masterminds.pkg) First "app" "1.3.0"
                         (Container.Image c))
           (FakeDocker.running_containers
              (MoreSamples.three_containers MoreSamples.second_create_fails)) in
  (snd run1 = Failed "create new container error: request failed" /\
   count is_remove (calls (fst run1)) = 2 /\
   count is_create (calls (fst run1)) = 2 /\
   count is_start (calls (fst run1)) = 1) /\
  count is_start (calls (fst run1)) <= count is_create (calls (fst run1)) /\
  count is_create (calls (fst run1)) <= count is_remove (calls (fst run1)) /\
  count is_remove (calls (fst run1)) <= S (count is_start (calls (fst run1))) /\
  count is_remove (calls (fst run1)) <= length selection /\
  (is_done (snd run1) = true ->
   count is_start (calls (fst run1)) = length selection).
Proof.
  cbv zeta. unfold Samples.update. split; [vm_compute; auto|].
  apply (X11_at_most_one_container_in_between (cli := FakeDocker.client)
           (sv := Masterminds.pkg) (rf := SimpleReference.pkg)
           First "app" "1.3.0"
           (MoreSamples.three_containers MoreSamples.second_create_fails)
           (MoreSamples.three_containers MoreSamples.second_create_fails)
           (FakeDocker.running_containers
              (MoreSamples.three_containers MoreSamples.second_create_fails))).
  - reflexivity.
  - apply surjective_pairing.
Defined.

Lemma X12_pulled_before_anything_is_touched_witness :
  let run1 := Samples.update First "app" "1.3.0"
                (MoreSamples.three_containers MoreSamples.second_create_fails) in
  exists pn rest,
    ParseNormalizedNamed (ReferencePkg := SimpleReference.pkg)
                         ("app" ++ ":" ++ "1.3.0") = inl pn /\
    calls (fst run1) = [CContainerList; CImagePull pn; CCopyDiscard] ++ rest.
Proof.
  cbv zeta. unfold Samples.update.
  apply (X12_pulled_before_anything_is_touched (cli := FakeDocker.client)
           (sv := Masterminds.pkg) (rf := SimpleReference.pkg)
           First "app" "1.3.0"
           (MoreSamples.three_containers MoreSamples.second_create_fails)
           _ (snd (run (updateContainer (cli := FakeDocker.client)
                          (sv := Masterminds.pkg) (rf := SimpleReference.pkg)
                          First "app" "1.3.0")
                       (MoreSamples.three_containers
                          MoreSamples.second_create_fails)))
           (CContainerRemove "c1" true)).
  - apply surjective_pairing.
  - vm_compute. auto 10.
  - reflexivity.
Defined.

Lemma X13_missing_config_panics_after_remove_witness :
  let st0 := {| world := Samples.world_with "app:1.2.0" FakeDocker.no_faults;
                calls := [] |} in
  snd (recreate (cli := ConfiglessDocker.client) "app:1.3.0"
                Samples.app_1_2_0 st0) = Panicked /\
  calls (fst (recreate (cli := ConfiglessDocker.client) "app:1.3.0"
                       Samples.app_1_2_0 st0))
  = [CContainerInspect "c1"; CContainerRemove "c1" true].
Proof.
  cbv zeta.
  rewrite (X13_missing_config_panics_after_remove
             (cli := ConfiglessDocker.client) "app:1.3.0" Samples.app_1_2_0
             {| world := Samples.world_with "app:1.2.0" FakeDocker.no_faults;
                calls := [] |} _ _ _ _ eq_refl eq_refl eq_refl eq_refl).
  split; reflexivity.
Defined.

Lemma X14_no_error_after_start_witness :
  snd (recreate (cli := FakeDocker.client) "app:1.3.0" Samples.app_1_2_0
         {| world := Samples.world_with "app:1.2.0" Samples.image_remove_fails;
            calls := [] |}) = Done tt /\
  snd (recreate (cli := FakeDocker.client) "app:1.3.0" Samples.app_1_2_0
         {| world := Samples.world_with "app:1.2.0" Samples.reinspect_fails;
            calls := [] |}) = Panicked.
Proof.
  split.
  - exact (X14_no_error_after_start (cli := FakeDocker.client)
             "app:1.3.0" Samples.app_1_2_0
             {| world := Samples.world_with "app:1.2.0"
                           Samples.image_remove_fails;
                calls := [] |}
             _ _ _ _ _ _ _ _ eq_refl eq_refl eq_refl eq_refl eq_refl eq_refl).
  - exact (X14_no_error_after_start (cli := FakeDocker.client)
             "app:1.3.0" Samples.app_1_2_0
             {| world := Samples.world_with "app:1.2.0" Samples.reinspect_fails;
                calls := [] |}
             _ _ _ _ _ _ _ _ eq_refl eq_refl eq_refl eq_refl eq_refl eq_refl).
Defined.

Lemma X15_stream_closed_once_and_last_witness :
  let run1 := Samples.update First "app" "1.3.0"
                (MoreSamples.three_containers MoreSamples.second_create_fails) in
  count is_close (calls (fst run1)) = 1 /\
  last (calls (fst run1)) CContainerList = CClose.
Proof.
  cbv zeta. unfold Samples.update.
  apply (X15_stream_closed_once_and_last (cli := FakeDocker.client)
           (sv := Masterminds.pkg) (rf := SimpleReference.pkg)
           First "app" "1.3.0"
           (MoreSamples.three_containers MoreSamples.second_create_fails)
           _ (snd (run (updateContainer (cli := FakeDocker.client)
                          (sv := Masterminds.pkg) (rf := SimpleReference.pkg)
                          First "app" "1.3.0")
                       (MoreSamples.three_containers
                          MoreSamples.second_create_fails)))).
  - apply surjective_pairing.
  - vm_compute. auto 10.
Defined.

Lemma X16_manual_call_without_parameter_witness :
  let s := FakeEcho.arriving (FakeEcho.get [("repo", "app")])
             (Samples.world_with "app:1.2.0" FakeDocker.no_faults) in
  updManual (cli := FakeDocker.client) (sv := Masterminds.pkg)
            (rf := SimpleReference.pkg) (echo := FakeEcho.context) First s
  = (s, Failed "repo and tag must be filled").
Proof.
  apply (X16_manual_call_without_parameter (cli := FakeDocker.client)
           (sv := Masterminds.pkg) (rf := SimpleReference.pkg)
           (echo := FakeEcho.context) First).
  right. reflexivity.
Defined.

Lemma X17_hook_without_repository_or_tag_witness :
  let s := FakeEcho.arriving (FakeEcho.post "app" "")
             (Samples.world_with "app:1.2.0" FakeDocker.no_faults) in
  updByHook (cli := FakeDocker.client) (sv := Masterminds.pkg)
            (rf := SimpleReference.pkg) (echo := FakeEcho.context) First s
  = ({| ctx := FakeEcho.post "app" ""; written := written s;
        docker := docker s |},
     Failed "repo and tag must be filled").
Proof.
  apply (X17_hook_without_repository_or_tag (cli := FakeDocker.client)
           (sv := Masterminds.pkg) (rf := SimpleReference.pkg)
           (echo := FakeEcho.context) First _ _
           (push.mk (pushData.mk 0 "" "someone") (repository.mk "app" true))).
  - reflexivity.
  - right. reflexivity.
Defined.

Lemma X18_unknown_tag_answers_OK_witness :
  updManual (cli := FakeDocker.client) (sv := Masterminds.pkg)
            (rf := SimpleReference.pkg) (echo := FakeEcho.context) First
            (FakeEcho.arriving
               (FakeEcho.get [("repo", "app"); ("tag", "stable")])
               (Samples.world_with "app:1.2.0" FakeDocker.no_faults))
  = ({| ctx := FakeEcho.get [("repo", "app"); ("tag", "stable")];
        written := [WString 200 "OK"];
        docker := {| world := Samples.world_with "app:1.2.0" FakeDocker.no_faults;
                     calls := [CContainerList] |} |}, Done tt).
Proof.
  eapply (X18_unknown_tag_answers_OK (cli := FakeDocker.client)
           (sv := Masterminds.pkg) (rf := SimpleReference.pkg)
           (echo := FakeEcho.context) First
           (FakeEcho.get [("repo", "app"); ("tag", "stable")]) _ []
           (Samples.world_with "app:1.2.0" FakeDocker.no_faults));
    [discriminate | discriminate | discriminate | reflexivity | reflexivity
    | reflexivity].
Defined.
